(** * sqlite-todo-example: the todo store and its two list views

    A shallow embedding of [App.js] and [components/Items.js].  The
    program issues five fixed SQL statements through [db.transaction] /
    [tx.executeSql]; the [items] table is modelled as the list of its
    rows, each statement by what SQLite does for it, and the callbacks
    of the two components as functions on one [World] record. *)

From Stdlib Require Import List ZArith String Bool Lia.
Import ListNotations.
Local Open Scope Z_scope.

(** ** Values *)

(** The [text] argument of [add]: [this.state.text] starts as [null],
    is set to a string by [onChangeText] and reset to [null] after each
    submit; a caller that omits the argument passes [undefined]. *)
Inductive jsval : Type :=
| JNull
| JUndefined
| JString (s : string).

(** What the [value text] column holds. *)
Inductive sqlval : Type :=
| SqlNull
| SqlText (s : string).

(** Binding the [?] placeholder of the insert: a string is bound as
    text, [null] and [undefined] are both bound as SQL NULL. *)
Definition bind (v : jsval) : sqlval :=
  match v with
  | JString s => SqlText s
  | JNull | JUndefined => SqlNull
  end.

(** The strict equalities of the guard of [add]. *)
Definition strict_eq_null (v : jsval) : bool :=
  match v with JNull => true | _ => false end.

Definition strict_eq_empty (v : jsval) : bool :=
  match v with JString s => String.eqb s EmptyString | _ => false end.

(** ** The items table *)

(** [create table if not exists items
       (id integer primary key not null, done int, value text)] *)
Record Row : Type := mkRow { id : Z; done : Z; value : sqlval }.

Definition Table : Type := list Row.

(** The largest rowid in use. *)
Fixpoint max_rowid (t : Table) : option Z :=
  match t with
  | [] => None
  | r :: t' =>
      match max_rowid t' with
      | None => Some (id r)
      | Some m => Some (Z.max (id r) m)
      end
  end.

(** [id integer primary key] without AUTOINCREMENT is an alias of the
    rowid: an insert that names no id gets 1 in an empty table and one
    more than the largest rowid in use otherwise.  Row ids are unbounded
    integers here: the signed 64-bit ceiling of the engine is out of
    reach of a table that only this program fills. *)
Definition next_rowid (t : Table) : Z :=
  match max_rowid t with
  | None => 1
  | Some m => m + 1
  end.

(** The five statements of the program, each with its bound arguments. *)
Inductive Sql : Type :=
| CreateTableIfNotExists
    (* "create table if not exists items (...);", [] *)
| InsertItem (text : jsval)
    (* "insert into items (done, value) values (0, ?)", [text] *)
| SelectAll
    (* "select * from items", [] *)
| SelectWhereDone (d : Z)
    (* 'select * from items where done = ?', [this.props.done ? 1 : 0] *)
| UpdateSetDone (i : Z)
    (* "update items set done = 1 where id = ?", [id] *)
| DeleteWhereId (i : Z).
    (* "delete from items where id = ?", [id] *)

Inductive SqlError : Type :=
| NoSuchTable.

(** The database file [db1.db]: [None] while the table has not been
    created, [Some t] once it has. *)
Definition File : Type := option Table.

Definition set_done (i : Z) (r : Row) : Row :=
  if id r =? i then mkRow (id r) 1 (value r) else r.

(** The rows selected by [where done = ?]. *)
Definition rows_where_done (d : Z) (t : Table) : list Row :=
  filter (fun r => done r =? d) t.

(** One statement: the new file and the rows of the result set, or the
    error of the engine. *)
Definition execute (q : Sql) (f : File) : File * list Row + SqlError :=
  match q, f with
  | CreateTableIfNotExists, None => inl (Some [], [])
  | CreateTableIfNotExists, Some t => inl (Some t, [])
  | _, None => inr NoSuchTable
  | InsertItem text, Some t =>
      inl (Some (t ++ [mkRow (next_rowid t) 0 (bind text)]), [])
  | SelectAll, Some t => inl (Some t, t)
  | SelectWhereDone d, Some t =>
      inl (Some t, rows_where_done d t)
  | UpdateSetDone i, Some t => inl (Some (map (set_done i) t), [])
  | DeleteWhereId i, Some t =>
      inl (Some (filter (fun r => negb (id r =? i)) t), [])
  end.

(** ** The handle and the components *)

Inductive Platform : Type := Web | Native.

(** [openDatabase]: on the web an object whose [transaction] does
    nothing, otherwise the opened (or newly created) file. *)
Inductive Database : Type :=
| WebStub
| SQLiteDb (f : File).

Definition openDatabase (os : Platform) (on_disk : File) : Database :=
  match os with
  | Web => WebStub
  | Native => SQLiteDb on_disk
  end.

Inductive LogEntry : Type :=
| LogError (e : SqlError)      (* console.log(err) *)
| LogTransaction               (* a statement error callback logs its
                                  first argument, the transaction *)
| LogRows (rows : list Row).   (* console.log(JSON.stringify(rows)) *)

(** The global [db], [App.state.text], the [state.items] of the two
    [Items] components ([this.todo] with [done={false}], [this.done]
    with [done={true}]; [None] is [null]) and the console. *)
Record World : Type := mkWorld {
  db : Database;
  text : jsval;
  todo_items : option (list Row);
  done_items : option (list Row);
  console : list LogEntry
}.

Definition with_db (d : Database) (w : World) : World :=
  mkWorld d (text w) (todo_items w) (done_items w) (console w).

Definition console_log (e : LogEntry) (w : World) : World :=
  mkWorld (db w) (text w) (todo_items w) (done_items w) (console w ++ [e]).

(** [App.setText] *)
Definition setText (t : jsval) (w : World) : World :=
  mkWorld (db w) t (todo_items w) (done_items w) (console w).

(** [Items.setItems], for the component whose [props.done] is [p]. *)
Definition setItems (p : bool) (items : list Row) (w : World) : World :=
  if p
  then mkWorld (db w) (text w) (todo_items w) (Some items) (console w)
  else mkWorld (db w) (text w) (Some items) (done_items w) (console w).

(** [state.items] of the component whose [props.done] is [p]. *)
Definition items_of (p : bool) (w : World) : option (list Row) :=
  if p then done_items w else todo_items w.

(** ** Transactions *)

(** A call of [tx.executeSql]: the statement, its success callback (on
    the rows of the result set) and its error callback, which returns
    whether the error stays unhandled. *)
Record Statement : Type := mkStatement {
  sql : Sql;
  callback : option (list Row -> World -> World);
  errorCallback : option (SqlError -> World -> World * bool)
}.

(** The statements queued by a transaction callback run in order on the
    file; the first unhandled error stops the batch. *)
Fixpoint run_batch (b : list Statement) (f : File) (w : World)
  : File * World * option SqlError :=
  match b with
  | [] => (f, w, None)
  | s :: b' =>
      match execute (sql s) f with
      | inl (f', rows) =>
          let w' := match callback s with
                    | Some k => k rows w
                    | None => w
                    end in
          run_batch b' f' w'
      | inr e =>
          match errorCallback s with
          | Some k =>
              let (w', unhandled) := k e w in
              if unhandled then (f, w', Some e) else run_batch b' f w'
          | None => (f, w, Some e)
          end
      end
  end.

(** [db.transaction(callback, errorCallback, successCallback)]: the stub
    ignores its arguments; the real handle commits and calls
    [successCallback], or rolls the file back and calls
    [errorCallback]. *)
Definition transaction (b : list Statement)
    (onError : option (SqlError -> World -> World))
    (onSuccess : option (World -> World)) (w : World) : World :=
  match db w with
  | WebStub => w
  | SQLiteDb f =>
      match run_batch b f w with
      | (f', w', None) =>
          let w'' := with_db (SQLiteDb f') w' in
          match onSuccess with Some k => k w'' | None => w'' end
      | (_, w', Some e) =>
          let w'' := with_db (SQLiteDb f) w' in
          match onError with Some k => k e w'' | None => w'' end
      end
  end.

Definition log_error (e : SqlError) (w : World) : World :=
  console_log (LogError e) w.

(** ** App.js and Items.js *)

(** [App.componentDidMount] *)
Definition componentDidMount (w : World) : World :=
  transaction
    [ mkStatement CreateTableIfNotExists None
        (Some (fun _ w => (console_log LogTransaction w, false))) ]
    (Some log_error) None w.

(** [Items.update], for the component whose [props.done] is [p]. *)
Definition Items_update (p : bool) (w : World) : World :=
  transaction
    [ mkStatement (SelectWhereDone (if p then 1 else 0))
        (Some (setItems p)) None ]
    None None w.

(** [App.update]: [this.todo.update()] then [this.done.update()]. *)
Definition update (w : World) : World :=
  Items_update true (Items_update false w).

(** What [add] returns: [false] from the guard, nothing otherwise. *)
Inductive Returned : Type := ReturnedFalse | ReturnedUndefined.

(** [App.add] *)
Definition add (t : jsval) (w : World) : Returned * World :=
  if strict_eq_null t || strict_eq_empty t then (ReturnedFalse, w)
  else
    (ReturnedUndefined,
     transaction
       [ mkStatement (InsertItem t) None None;
         mkStatement SelectAll (Some (fun rows => console_log (LogRows rows)))
           None ]
       (Some log_error) (Some update) w).

(** [onSubmitEditing] of the text input. *)
Definition onSubmitEditing (w : World) : World :=
  setText JNull (snd (add (text w) w)).

(** [onPress] of the [Items] with [done={false}]. *)
Definition onPress_todo (i : Z) (w : World) : World :=
  transaction [ mkStatement (UpdateSetDone i) None None ]
    (Some log_error) (Some update) w.

(** [onPress] of the [Items] with [done={true}]. *)
Definition onPress_done (i : Z) (w : World) : World :=
  transaction [ mkStatement (DeleteWhereId i) None None ]
    (Some log_error) (Some update) w.

(** ** Sequences of operations *)

(** The operations a user of the two components can trigger. *)
Inductive Op : Type :=
| Create (t : jsval)        (* add(t) *)
| ListByStatus (p : bool)   (* Items.update of the component with done={p} *)
| MarkDone (i : Z)          (* onPress of a pending item *)
| Delete (i : Z).           (* onPress of a done item *)

Definition perform (o : Op) (w : World) : World :=
  match o with
  | Create t => snd (add t w)
  | ListByStatus p => Items_update p w
  | MarkDone i => onPress_todo i w
  | Delete i => onPress_done i w
  end.

Definition run (ops : list Op) (w : World) : World :=
  fold_left (fun w o => perform o w) ops w.

(** A first launch on a device: no file yet, the two [Items] mount (and
    query) before [App] mounts and creates the table. *)
Definition fresh : World :=
  mkWorld (openDatabase Native None) JNull None None [].

Definition start : World :=
  componentDidMount (Items_update true (Items_update false fresh)).

(** The rows of the table, when there is one. *)
Definition table_of (w : World) : Table :=
  match db w with
  | SQLiteDb (Some t) => t
  | _ => []
  end.

(** States reached from [start] by operations that satisfy [allowed]. *)
Inductive reachable_by (allowed : Op -> Prop) : World -> Prop :=
| reach_start : reachable_by allowed start
| reach_step o w :
    reachable_by allowed w -> allowed o -> reachable_by allowed (perform o w).

Definition reachable : World -> Prop := reachable_by (fun _ => True).

(** [add] is documented with [@param {string} text] and called with
    [this.state.text], a string or [null]: never with [undefined]. *)
Definition from_text_input (o : Op) : Prop :=
  match o with
  | Create JUndefined => False
  | _ => True
  end.

(** The table invariants. *)
Definition unique_ids (t : Table) : Prop := NoDup (map id t).

Definition done_is_flag (t : Table) : Prop :=
  Forall (fun r => done r = 0 \/ done r = 1) t.

Definition value_is_text (r : Row) : Prop :=
  exists s, value r = SqlText s /\ s <> EmptyString.

Definition values_nonempty (t : Table) : Prop := Forall value_is_text t.

(** What each operation does to an existing table (see
    [perform_table] below). *)
Definition table_after (o : Op) (t : Table) : Table :=
  match o with
  | Create v =>
      if strict_eq_null v || strict_eq_empty v then t
      else t ++ [mkRow (next_rowid t) 0 (bind v)]
  | ListByStatus _ => t
  | MarkDone i => map (set_done i) t
  | Delete i => filter (fun r => negb (id r =? i)) t
  end.

(** What the rendered screen lets a user do: type in the input
    ([onChangeText] always passes a string), submit it, press a pending
    item, press a done item. *)
Inductive Event : Type :=
| ChangeText (s : string)
| SubmitEditing
| PressTodo (i : Z)
| PressDone (i : Z).

Definition handle (e : Event) (w : World) : World :=
  match e with
  | ChangeText s => setText (JString s) w
  | SubmitEditing => onSubmitEditing w
  | PressTodo i => onPress_todo i w
  | PressDone i => onPress_done i w
  end.

Inductive on_screen : World -> Prop :=
| screen_start : on_screen start
| screen_event e w : on_screen w -> on_screen (handle e w).

(** A deleted item never comes back: once an operation has removed the
    id of a stored row, no later state holds that row again. *)
Definition deleted_rows_stay_deleted : Prop :=
  forall (before : list Op) (o : Op) (later : list Op) (r : Row),
    In r (table_of (run before start)) ->
    ~ In (id r) (map id (table_of (run (before ++ [o]) start))) ->
    ~ In r (table_of (run (before ++ o :: later) start)).

(** ** Rendering *)

Inductive ItemStyle : Type := itemTodo | itemDone.
Inductive TextStyle : Type := itemTodoText | itemDoneText.

(** A JavaScript number used as a condition: only 0 is falsy. *)
Definition truthy (z : Z) : bool := negb (z =? 0).

(** One [<Pressable>] of [Items.render]: its [key], the id its
    [onPress] passes to [props.onPress], its style, and the style and
    content of the [<Text>] inside. *)
Record Pressable : Type := mkPressable {
  key : Z;
  pressed_id : Z;
  style : ItemStyle;
  textStyle : TextStyle;
  label : sqlval
}.

Definition pressable_of (r : Row) : Pressable :=
  mkPressable (id r) (id r)
    (if truthy (done r) then itemDone else itemTodo)
    (if truthy (done r) then itemDoneText else itemTodoText)
    (value r).

(** The section [Items.render] returns: a heading and the items. *)
Record Section : Type := mkSection {
  heading : string;
  children : list Pressable
}.

(** [Items.render], for the component whose [props.done] is [p]:
    nothing while [state.items] is [null] or has length 0. *)
Definition Items_render (p : bool) (w : World) : option Section :=
  match items_of p w with
  | None => None
  | Some items =>
      if (List.length items =? 0)%nat then None
      else Some (mkSection (if p then "Complete" else "To do")
                   (map pressable_of items))
  end.

(** The React keys of a rendered section. *)
Definition keys_of (sec : option Section) : list Z :=
  match sec with
  | None => []
  | Some sec => map key (children sec)
  end.

(** The [onPress] prop that [App.render] gives to each [Items]. *)
Definition Items_onPress (p : bool) (i : Z) (w : World) : World :=
  if p then onPress_done i w else onPress_todo i w.

(** [App.render]: the notice on the web, otherwise the input showing
    [state.text] and the two sections. *)
Inductive Screen : Type :=
| NotSupported
| Main (input : jsval) (todo done_ : option Section).

Definition App_render (os : Platform) (w : World) : Screen :=
  match os with
  | Web => NotSupported
  | Native => Main (text w) (Items_render false w) (Items_render true w)
  end.

(** ** Launching *)

(** The file behind the handle. *)
Definition file_of (w : World) : File :=
  match db w with
  | SQLiteDb f => f
  | WebStub => None
  end.

(** A launch: [db] is opened, the constructors set [text] and both
    [items] to [null], then the two [Items] mount (each runs its
    [update]) and [App] mounts. *)
Definition launch (os : Platform) (on_disk : File) : World :=
  componentDidMount
    (Items_update true
       (Items_update false
          (mkWorld (openDatabase os on_disk) JNull None None []))).

(** A component shows the table: its snapshot is the selection of its
    status, or it has never been filled and there is nothing to show. *)
Definition in_sync (w : World) : Prop :=
  forall p : bool,
    items_of p w = Some (rows_where_done (if p then 1 else 0) (table_of w)) \/
    (items_of p w = None /\ table_of w = []).

(** A console entry written by the dump of [add], not by an error
    callback. *)
Definition is_dump (e : LogEntry) : Prop :=
  match e with
  | LogRows _ => True
  | _ => False
  end.

(** * Properties *)

(** ** Computing the operations on an existing table *)

Lemma with_db_same (w : World) : with_db (db w) w = w.
Proof. destruct w; reflexivity. Qed.

Lemma Items_update_table (p : bool) (w : World) (t : Table) :
  db w = SQLiteDb (Some t) ->
  Items_update p w = setItems p (rows_where_done (if p then 1 else 0) t) w.
Proof.
  intros Hdb. unfold Items_update, transaction. rewrite Hdb. simpl.
  rewrite <- Hdb. destruct w, p; reflexivity.
Qed.

Lemma update_table (w : World) (t : Table) :
  db w = SQLiteDb (Some t) ->
  update w =
  mkWorld (db w) (text w) (Some (rows_where_done 0 t))
    (Some (rows_where_done 1 t)) (console w).
Proof.
  intros Hdb. unfold update.
  rewrite (Items_update_table false w t Hdb).
  rewrite (Items_update_table true _ t) by exact Hdb.
  reflexivity.
Qed.

Lemma add_table (v : jsval) (w : World) (t : Table) :
  db w = SQLiteDb (Some t) ->
  strict_eq_null v || strict_eq_empty v = false ->
  let t' := t ++ [mkRow (next_rowid t) 0 (bind v)] in
  add v w =
  (ReturnedUndefined,
   mkWorld (SQLiteDb (Some t')) (text w) (Some (rows_where_done 0 t'))
     (Some (rows_where_done 1 t')) (console w ++ [LogRows t'])).
Proof.
  intros Hdb Hguard t'. unfold add. rewrite Hguard.
  unfold transaction. rewrite Hdb. simpl.
  erewrite update_table by reflexivity. reflexivity.
Qed.

Lemma onPress_todo_table (i : Z) (w : World) (t : Table) :
  db w = SQLiteDb (Some t) ->
  let t' := map (set_done i) t in
  onPress_todo i w =
  mkWorld (SQLiteDb (Some t')) (text w) (Some (rows_where_done 0 t'))
    (Some (rows_where_done 1 t')) (console w).
Proof.
  intros Hdb t'. unfold onPress_todo, transaction. rewrite Hdb. simpl.
  erewrite update_table by reflexivity. reflexivity.
Qed.

Lemma onPress_done_table (i : Z) (w : World) (t : Table) :
  db w = SQLiteDb (Some t) ->
  let t' := filter (fun r => negb (id r =? i)) t in
  onPress_done i w =
  mkWorld (SQLiteDb (Some t')) (text w) (Some (rows_where_done 0 t'))
    (Some (rows_where_done 1 t')) (console w).
Proof.
  intros Hdb t'. unfold onPress_done, transaction. rewrite Hdb. simpl.
  erewrite update_table by reflexivity. reflexivity.
Qed.

Lemma perform_table (o : Op) (w : World) (t : Table) :
  db w = SQLiteDb (Some t) ->
  db (perform o w) = SQLiteDb (Some (table_after o t)).
Proof.
  intros Hdb. destruct o as [v | p | i | i]; simpl.
  - destruct (strict_eq_null v || strict_eq_empty v) eqn:Hguard.
    + unfold add. rewrite Hguard. exact Hdb.
    + rewrite (add_table v w t Hdb Hguard). reflexivity.
  - rewrite (Items_update_table p w t Hdb). destruct p; exact Hdb.
  - rewrite (onPress_todo_table i w t Hdb). reflexivity.
  - rewrite (onPress_done_table i w t Hdb). reflexivity.
Qed.

Lemma start_table : db start = SQLiteDb (Some []).
Proof. reflexivity. Qed.

Lemma reachable_has_table (allowed : Op -> Prop) (w : World) :
  reachable_by allowed w -> exists t, db w = SQLiteDb (Some t).
Proof.
  induction 1 as [| o w _ [t Ht] _].
  - exists []. exact start_table.
  - exists (table_after o t). apply perform_table, Ht.
Qed.

Lemma table_of_db (w : World) (t : Table) :
  db w = SQLiteDb (Some t) -> table_of w = t.
Proof. intros H. unfold table_of. rewrite H. reflexivity. Qed.

(** ** Rows, row ids and selections *)

Lemma In_rows_where_done (d : Z) (t : Table) (r : Row) :
  In r (rows_where_done d t) <-> In r t /\ done r = d.
Proof.
  unfold rows_where_done. rewrite filter_In, Z.eqb_eq. reflexivity.
Qed.

Lemma rows_where_done_app (d : Z) (t u : Table) :
  rows_where_done d (t ++ u) = rows_where_done d t ++ rows_where_done d u.
Proof. apply filter_app. Qed.

Lemma max_rowid_bound (t : Table) (r : Row) :
  In r t -> exists m, max_rowid t = Some m /\ id r <= m.
Proof.
  induction t as [| x t IH]; simpl; [contradiction |].
  intros [-> | Hin].
  - destruct (max_rowid t) as [m |]; eexists; split; try reflexivity; lia.
  - destruct (IH Hin) as [m [-> Hle]]. eexists; split; [reflexivity | lia].
Qed.

Lemma next_rowid_above (t : Table) (r : Row) : In r t -> id r < next_rowid t.
Proof.
  intros Hin. unfold next_rowid.
  destruct (max_rowid_bound t r Hin) as [m [-> Hle]]. lia.
Qed.

Lemma next_rowid_fresh (t : Table) : ~ In (next_rowid t) (map id t).
Proof.
  rewrite in_map_iff. intros [r [Heq Hin]].
  pose proof (next_rowid_above t r Hin). lia.
Qed.

Lemma id_set_done (i : Z) (r : Row) : id (set_done i r) = id r.
Proof. unfold set_done. destruct (id r =? i); reflexivity. Qed.

Lemma value_set_done (i : Z) (r : Row) : value (set_done i r) = value r.
Proof. unfold set_done. destruct (id r =? i); reflexivity. Qed.

Lemma ids_set_done (i : Z) (t : Table) : map id (map (set_done i) t) = map id t.
Proof.
  rewrite map_map. apply map_ext. intros r. apply id_set_done.
Qed.

Lemma set_done_absent (i : Z) (t : Table) :
  (forall r, In r t -> id r <> i) -> map (set_done i) t = t.
Proof.
  intros Habs. rewrite <- (map_id t) at 2. apply map_ext_in.
  intros r Hin. unfold set_done.
  destruct (Z.eqb_spec (id r) i) as [Heq | _]; [| reflexivity].
  destruct (Habs r Hin Heq).
Qed.

Lemma delete_absent (i : Z) (t : Table) :
  (forall r, In r t -> id r <> i) ->
  filter (fun r => negb (id r =? i)) t = t.
Proof.
  intros Habs. induction t as [| x t IH]; simpl; [reflexivity |].
  destruct (Z.eqb_spec (id x) i) as [Heq | _]; simpl.
  - destruct (Habs x (or_introl eq_refl) Heq).
  - f_equal. apply IH. intros r Hin. apply Habs. right. exact Hin.
Qed.

Lemma ids_of_filter (p : Row -> bool) (t : Table) (i : Z) :
  In i (map id (filter p t)) -> In i (map id t).
Proof.
  rewrite !in_map_iff. intros [r [Hid Hr]].
  exists r. apply filter_In in Hr. tauto.
Qed.

Lemma unique_ids_filter (p : Row -> bool) (t : Table) :
  unique_ids t -> unique_ids (filter p t).
Proof.
  unfold unique_ids. induction t as [| x t IH]; simpl; intros Hu.
  - exact Hu.
  - apply NoDup_cons_iff in Hu. destruct Hu as [Hx Ht].
    destruct (p x); simpl; [| exact (IH Ht)].
    apply NoDup_cons; [| exact (IH Ht)].
    intros Hdup. exact (Hx (ids_of_filter p t (id x) Hdup)).
Qed.

Lemma unique_ids_insert (t : Table) (r : Row) :
  unique_ids t -> ~ In (id r) (map id t) -> unique_ids (t ++ [r]).
Proof.
  unfold unique_ids. intros Hu Hfresh. rewrite map_app.
  apply NoDup_app; [exact Hu | |].
  - simpl. apply NoDup_cons; [intros [] | apply NoDup_nil].
  - intros i Hi [<- | []]. exact (Hfresh Hi).
Qed.

(** ** The invariants along every sequence of operations *)

Lemma unique_ids_after (o : Op) (t : Table) :
  unique_ids t -> unique_ids (table_after o t).
Proof.
  unfold unique_ids. intros Hnd. destruct o as [v | p | i | i]; simpl.
  - destruct (strict_eq_null v || strict_eq_empty v); [exact Hnd |].
    apply (unique_ids_insert t _ Hnd), next_rowid_fresh.
  - exact Hnd.
  - rewrite ids_set_done. exact Hnd.
  - apply unique_ids_filter. exact Hnd.
Qed.

Lemma done_is_flag_after (o : Op) (t : Table) :
  done_is_flag t -> done_is_flag (table_after o t).
Proof.
  unfold done_is_flag. intros Hall. destruct o as [v | p | i | i]; simpl.
  - destruct (strict_eq_null v || strict_eq_empty v); [exact Hall |].
    apply Forall_app. split; [exact Hall |].
    constructor; [left; reflexivity | constructor].
  - exact Hall.
  - rewrite Forall_map. eapply Forall_impl; [| exact Hall].
    intros r Hr. unfold set_done. destruct (id r =? i); simpl; auto.
  - rewrite Forall_forall in *. intros r Hin. apply filter_In in Hin.
    apply Hall. tauto.
Qed.

Lemma guard_passes_text (v : jsval) :
  from_text_input (Create v) ->
  strict_eq_null v || strict_eq_empty v = false ->
  exists s, bind v = SqlText s /\ s <> EmptyString.
Proof.
  destruct v as [| | s]; simpl; intros Hin Hguard; try discriminate;
    try contradiction.
  exists s. split; [reflexivity |].
  apply String.eqb_neq. exact Hguard.
Qed.

Lemma values_nonempty_after (o : Op) (t : Table) :
  from_text_input o -> values_nonempty t -> values_nonempty (table_after o t).
Proof.
  unfold values_nonempty. intros Hin Hall.
  destruct o as [v | p | i | i]; simpl.
  - destruct (strict_eq_null v || strict_eq_empty v) eqn:Hguard;
      [exact Hall |].
    apply Forall_app. split; [exact Hall |].
    constructor; [| constructor].
    exact (guard_passes_text v Hin Hguard).
  - exact Hall.
  - rewrite Forall_map. eapply Forall_impl; [| exact Hall].
    intros r Hr. unfold value_is_text. rewrite value_set_done. exact Hr.
  - rewrite Forall_forall in *. intros r Hr. apply filter_In in Hr.
    apply Hall. tauto.
Qed.

Lemma reachable_unique_flags (allowed : Op -> Prop) (w : World) :
  reachable_by allowed w ->
  unique_ids (table_of w) /\ done_is_flag (table_of w).
Proof.
  induction 1 as [| o w Hre [Hu Hd] _].
  - split; constructor.
  - destruct (reachable_has_table allowed w Hre) as [t Ht].
    rewrite (table_of_db _ _ (perform_table o w t Ht)).
    rewrite (table_of_db w t Ht) in Hu, Hd.
    split; [apply unique_ids_after | apply done_is_flag_after]; assumption.
Qed.

(** ** The operations, one by one *)

(** C1. On every state of the items table and for every non-empty
    string [s], [add s] inserts exactly one row, with a row id not in
    use, [done = 0] and [value = s]: the pending selection (before and
    after, and as refreshed by [add] itself) gains that one row, the
    done selection is the same, and the table has one row more. *)
Theorem add_inserts_one_pending_item (w : World) (t : Table) (s : string) :
  db w = SQLiteDb (Some t) ->
  s <> EmptyString ->
  let item := mkRow (next_rowid t) 0 (SqlText s) in
  let w' := snd (add (JString s) w) in
  db w' = SQLiteDb (Some (t ++ [item])) /\
  ~ In (id item) (map id t) /\
  items_of false (Items_update false w) = Some (rows_where_done 0 t) /\
  items_of false (Items_update false w')
    = Some (rows_where_done 0 t ++ [item]) /\
  List.length (rows_where_done 0 (table_of w'))
    = S (List.length (rows_where_done 0 t)) /\
  items_of true (Items_update true w')
    = items_of true (Items_update true w) /\
  todo_items w' = Some (rows_where_done 0 t ++ [item]) /\
  done_items w' = Some (rows_where_done 1 t) /\
  List.length (table_of w') = S (List.length t).
Proof.
  intros Hdb Hs item w'.
  assert (Hguard : strict_eq_null (JString s) || strict_eq_empty (JString s)
                   = false).
  { simpl. apply String.eqb_neq. exact Hs. }
  assert (Hw' : w' = mkWorld (SQLiteDb (Some (t ++ [item]))) (text w)
                       (Some (rows_where_done 0 t ++ [item]))
                       (Some (rows_where_done 1 t))
                       (console w ++ [LogRows (t ++ [item])])).
  { unfold w'. rewrite (add_table _ w t Hdb Hguard). simpl.
    rewrite !rows_where_done_app. simpl. rewrite app_nil_r. reflexivity. }
  assert (Hdb' : db w' = SQLiteDb (Some (t ++ [item]))).
  { rewrite Hw'. reflexivity. }
  assert (Hsel0 : rows_where_done 0 (t ++ [item])
                  = rows_where_done 0 t ++ [item]).
  { rewrite rows_where_done_app. reflexivity. }
  assert (Hsel1 : rows_where_done 1 (t ++ [item]) = rows_where_done 1 t).
  { rewrite rows_where_done_app. simpl. apply app_nil_r. }
  repeat split.
  - exact Hdb'.
  - apply next_rowid_fresh.
  - rewrite (Items_update_table false w t Hdb). reflexivity.
  - rewrite (Items_update_table false w' _ Hdb'). simpl.
    rewrite Hsel0. reflexivity.
  - rewrite (table_of_db w' _ Hdb'), Hsel0, length_app. simpl. lia.
  - rewrite (Items_update_table true w' _ Hdb').
    rewrite (Items_update_table true w t Hdb). simpl.
    rewrite Hsel1. reflexivity.
  - rewrite Hw'. reflexivity.
  - rewrite Hw'. reflexivity.
  - rewrite (table_of_db w' _ Hdb'), length_app. simpl. lia.
Qed.

Lemma add_inserts_one_pending_item_witness :
  db start = SQLiteDb (Some []) /\
  "a"%string <> EmptyString /\
  todo_items (snd (add (JString "a") start))
  = Some ([] ++ [mkRow 1 0 (SqlText "a")]).
Proof.
  split; [reflexivity |]. split; [discriminate |].
  apply (add_inserts_one_pending_item start [] "a");
    [reflexivity | discriminate].
Defined.

(** C2. On every state of the items table and for each [p],
    [Items.update] of the component with [done={p}] stores as its
    snapshot exactly the rows whose [done] column is [p ? 1 : 0]: every
    row of the snapshot is such a row of the table and every such row
    of the table is in the snapshot.  The query changes neither the
    table nor the snapshot of the other component, and the snapshot is
    a copy: a later statement on the table does not change it. *)
Theorem Items_update_selects_by_status (w : World) (t : Table) (p : bool) :
  db w = SQLiteDb (Some t) ->
  let d := if p then 1 else 0 in
  let w' := Items_update p w in
  items_of p w' = Some (rows_where_done d t) /\
  (forall r, In r (rows_where_done d t) <-> In r t /\ done r = d) /\
  db w' = db w /\
  items_of (negb p) w' = items_of (negb p) w /\
  (forall q : Sql,
      items_of p (transaction [mkStatement q None None] None None w')
      = items_of p w').
Proof.
  intros Hdb d w'.
  assert (Hw' : w' = setItems p (rows_where_done d t) w).
  { apply Items_update_table. exact Hdb. }
  split; [| split; [| split; [| split]]].
  - rewrite Hw'. destruct p; reflexivity.
  - intros r. apply In_rows_where_done.
  - rewrite Hw'. destruct p; reflexivity.
  - rewrite Hw'. destruct p; reflexivity.
  - intros q. unfold transaction.
    replace (db w') with (SQLiteDb (Some t))
      by (rewrite Hw', <- Hdb; destruct p; reflexivity).
    destruct q; simpl; destruct p; reflexivity.
Qed.

Lemma Items_update_selects_by_status_witness :
  let w := snd (add (JString "a") start) in
  db w = SQLiteDb (Some [mkRow 1 0 (SqlText "a")]) /\
  items_of false (Items_update false w) = Some [mkRow 1 0 (SqlText "a")].
Proof.
  split; [reflexivity |].
  apply (Items_update_selects_by_status
           (snd (add (JString "a") start)) [mkRow 1 0 (SqlText "a")] false).
  reflexivity.
Defined.

(** C3. On every state of the items table that holds a row [r] with
    [done = 0], pressing it in the pending list ([onPress] with its id)
    sets [done] to 1 in that row and keeps its [id] and [value]; every
    row with another id stays as it was, in place; after the refresh
    the handler triggers, the row is in the done snapshot and no row
    with its id is in the pending snapshot. *)
Theorem onPress_todo_marks_item_done (w : World) (t : Table) (r : Row) :
  db w = SQLiteDb (Some t) ->
  In r t ->
  done r = 0 ->
  let w' := onPress_todo (id r) w in
  let r' := mkRow (id r) 1 (value r) in
  In r' (table_of w') /\
  List.length (table_of w') = List.length t /\
  (forall k x, nth_error t k = Some x ->
     nth_error (table_of w') k
     = Some (if id x =? id r then mkRow (id x) 1 (value x) else x)) /\
  (forall x, id x <> id r -> In x (table_of w') <-> In x t) /\
  (exists l, done_items w' = Some l /\ In r' l) /\
  (exists l, todo_items w' = Some l /\ forall x, In x l -> id x <> id r).
Proof.
  intros Hdb Hin Hdone w' r'.
  pose proof (onPress_todo_table (id r) w t Hdb) as Hw'. simpl in Hw'.
  fold w' in Hw'.
  assert (Ht' : table_of w' = map (set_done (id r)) t).
  { rewrite Hw'. reflexivity. }
  assert (Hr' : In r' (map (set_done (id r)) t)).
  { apply in_map_iff. exists r. split; [| exact Hin].
    unfold set_done. rewrite Z.eqb_refl. reflexivity. }
  split; [| split; [| split; [| split; [| split]]]].
  - rewrite Ht'. exact Hr'.
  - rewrite Ht'. apply length_map.
  - intros k x Hk. rewrite Ht', nth_error_map, Hk. reflexivity.
  - intros x Hx. rewrite Ht', in_map_iff. split.
    + intros [y [Hy Hyin]]. unfold set_done in Hy.
      destruct (Z.eqb_spec (id y) (id r)) as [Heq | _].
      * subst x. simpl in Hx. contradiction.
      * subst x. exact Hyin.
    + intros Hxin. exists x. split; [| exact Hxin].
      unfold set_done.
      destruct (Z.eqb_spec (id x) (id r)); [contradiction | reflexivity].
  - eexists. split; [rewrite Hw'; reflexivity |].
    apply In_rows_where_done. split; [exact Hr' | reflexivity].
  - eexists. split; [rewrite Hw'; reflexivity |].
    intros x Hx. apply In_rows_where_done in Hx. destruct Hx as [Hx Hd].
    apply in_map_iff in Hx. destruct Hx as [y [Hy _]].
    unfold set_done in Hy.
    destruct (Z.eqb_spec (id y) (id r)) as [_ | Hne].
    + subst x. discriminate.
    + subst x. exact Hne.
Qed.

Lemma onPress_todo_marks_item_done_witness :
  let w := snd (add (JString "a") start) in
  let r := mkRow 1 0 (SqlText "a") in
  db w = SQLiteDb (Some [r]) /\ In r [r] /\ done r = 0 /\
  In (mkRow 1 1 (SqlText "a")) (table_of (onPress_todo 1 w)).
Proof.
  split; [reflexivity |]. split; [left; reflexivity |].
  split; [reflexivity |].
  exact (proj1 (onPress_todo_marks_item_done
                  (snd (add (JString "a") start)) [mkRow 1 0 (SqlText "a")]
                  (mkRow 1 0 (SqlText "a"))
                  eq_refl (or_introl eq_refl) eq_refl)).
Defined.

(** C4. In every state and for every id [i] that no stored row has,
    pressing [i] in the pending list and pressing [i] in the done list
    both leave the database as it was, and a query of either list
    gives the same snapshot after as before.  When the table exists
    each handler does exactly what a refresh alone does, and nothing is
    logged on the console. *)
Theorem onPress_unknown_id_is_noop (w : World) (i : Z) :
  (forall r, In r (table_of w) -> id r <> i) ->
  db (onPress_todo i w) = db w /\
  db (onPress_done i w) = db w /\
  (forall p, items_of p (Items_update p (onPress_todo i w))
             = items_of p (Items_update p w)) /\
  (forall p, items_of p (Items_update p (onPress_done i w))
             = items_of p (Items_update p w)) /\
  (forall t, db w = SQLiteDb (Some t) ->
     onPress_todo i w = update w /\
     onPress_done i w = update w /\
     console (update w) = console w).
Proof.
  intros Habs. destruct (db w) as [| [t |]] eqn:Hdb.
  - assert (Ht : onPress_todo i w = w).
    { unfold onPress_todo, transaction. rewrite Hdb. reflexivity. }
    assert (Hd : onPress_done i w = w).
    { unfold onPress_done, transaction. rewrite Hdb. reflexivity. }
    rewrite Ht, Hd, Hdb. repeat split; try reflexivity.
    all: discriminate.
  - rewrite (table_of_db w t Hdb) in Habs.
    assert (Ht : onPress_todo i w = update w).
    { rewrite (onPress_todo_table i w t Hdb), (update_table w t Hdb). simpl.
      rewrite (set_done_absent i t Habs), Hdb. reflexivity. }
    assert (Hd : onPress_done i w = update w).
    { rewrite (onPress_done_table i w t Hdb), (update_table w t Hdb). simpl.
      rewrite (delete_absent i t Habs), Hdb. reflexivity. }
    assert (Hu : db (update w) = SQLiteDb (Some t)).
    { rewrite (update_table w t Hdb). exact Hdb. }
    rewrite Ht, Hd, Hu.
    split; [reflexivity |]. split; [reflexivity |].
    split; [| split].
    + intros p. rewrite (Items_update_table p _ t Hu).
      rewrite (Items_update_table p w t Hdb). destruct p; reflexivity.
    + intros p. rewrite (Items_update_table p _ t Hu).
      rewrite (Items_update_table p w t Hdb). destruct p; reflexivity.
    + intros t0 _. split; [reflexivity |]. split; [reflexivity |].
      rewrite (update_table w t Hdb). reflexivity.
  - unfold onPress_todo, onPress_done, Items_update, transaction.
    rewrite Hdb. simpl.
    split; [reflexivity |]. split; [reflexivity |].
    split; [intros []; reflexivity |].
    split; [intros []; reflexivity |].
    discriminate.
Qed.

Lemma onPress_unknown_id_is_noop_witness :
  let w := snd (add (JString "a") start) in
  (forall r, In r (table_of w) -> id r <> 7) /\
  db (onPress_todo 7 w) = db w /\ db (onPress_done 7 w) = db w.
Proof.
  assert (H : forall r,
             In r (table_of (snd (add (JString "a") start))) -> id r <> 7).
  { simpl. intros r [<- | []]. discriminate. }
  split; [exact H |].
  pose proof (onPress_unknown_id_is_noop _ 7 H) as [H1 [H2 _]].
  split; [exact H1 | exact H2].
Defined.

(** C5 (as amended). In every state, [add] applied to [null] or to the
    empty string returns [false] and changes nothing: no row is
    inserted, nothing is logged, and both snapshots and both selections
    are as before. *)
Theorem add_null_or_empty_is_noop (w : World) :
  add JNull w = (ReturnedFalse, w) /\
  add (JString EmptyString) w = (ReturnedFalse, w) /\
  (forall v, v = JNull \/ v = JString EmptyString ->
     db (snd (add v w)) = db w /\
     todo_items (snd (add v w)) = todo_items w /\
     done_items (snd (add v w)) = done_items w /\
     forall p, items_of p (Items_update p (snd (add v w)))
               = items_of p (Items_update p w)).
Proof.
  split; [reflexivity |]. split; [reflexivity |].
  intros v [-> | ->]; simpl; repeat split; reflexivity.
Qed.

Lemma add_null_or_empty_is_noop_witness :
  db (snd (add JNull start)) = db start /\
  todo_items (snd (add (JString EmptyString) start)) = todo_items start.
Proof.
  split.
  - exact (proj1 (proj2 (proj2 (add_null_or_empty_is_noop start))
                    JNull (or_introl eq_refl))).
  - exact (proj1 (proj2 (proj2 (proj2 (add_null_or_empty_is_noop start))
                           (JString EmptyString) (or_intror eq_refl)))).
Defined.

(** C5 as stated fails for an absent argument: [add(undefined)] passes
    the guard and, on the empty table, inserts a row without a value,
    which the refresh then shows in the pending list. *)
Lemma add_undefined_inserts :
  fst (add JUndefined start) = ReturnedUndefined /\
  table_of start = [] /\
  table_of (snd (add JUndefined start)) = [mkRow 1 0 SqlNull] /\
  items_of false (Items_update false start) = Some [] /\
  items_of false (Items_update false (snd (add JUndefined start)))
  = Some [mkRow 1 0 SqlNull] /\
  table_of (snd (add JUndefined start)) <> table_of start /\
  items_of false (Items_update false (snd (add JUndefined start)))
  <> items_of false (Items_update false start).
Proof.
  split; [reflexivity |]. split; [reflexivity |]. split; [reflexivity |].
  split; [reflexivity |]. split; [reflexivity |].
  split; discriminate.
Qed.

(** C8. On the empty store, [add("buy milk")] followed by the query of
    the pending list gives exactly one row, with value "buy milk" and
    [done = 0]; the done list is empty. *)
Theorem add_then_list_round_trip :
  let w := snd (add (JString "buy milk") start) in
  table_of start = [] /\
  items_of false (Items_update false w)
  = Some [mkRow 1 0 (SqlText "buy milk")] /\
  items_of true (Items_update true w) = Some [].
Proof. repeat split. Qed.

(** C9. [componentDidMount] creates the table only if it is absent: on
    a store where the table exists it changes nothing (same rows, same
    snapshots, nothing logged), and in every state running it twice is
    the same as running it once. *)
Theorem componentDidMount_idempotent (w : World) :
  componentDidMount (componentDidMount w) = componentDidMount w /\
  (forall t, db w = SQLiteDb (Some t) -> componentDidMount w = w) /\
  (db w = SQLiteDb None ->
   componentDidMount w = with_db (SQLiteDb (Some [])) w).
Proof.
  unfold componentDidMount, transaction.
  destruct w as [[| [t |]] tx ti di c]; simpl.
  - split; [reflexivity |]. split; [discriminate | discriminate].
  - split; [reflexivity |]. split; [reflexivity | discriminate].
  - split; [reflexivity |]. split; [discriminate | reflexivity].
Qed.

Lemma componentDidMount_idempotent_witness :
  db start = SQLiteDb (Some []) /\ componentDidMount start = start.
Proof.
  split; [reflexivity |].
  exact (proj1 (proj2 (componentDidMount_idempotent start)) [] eq_refl).
Defined.

(** C10. The guard of [add] rejects [null] and the empty string and
    nothing else: every other argument, a string of blanks and
    [undefined] included, reaches the insert, and on an existing table
    one row is appended that holds the bound argument (the string as
    it is; NULL for [undefined]). *)
Theorem add_guard_rejects_only_null_and_empty
    (v : jsval) (w : World) (t : Table) :
  db w = SQLiteDb (Some t) ->
  (fst (add v w) = ReturnedFalse <-> v = JNull \/ v = JString EmptyString) /\
  (v = JNull \/ v = JString EmptyString -> snd (add v w) = w) /\
  (v <> JNull -> v <> JString EmptyString ->
   fst (add v w) = ReturnedUndefined /\
   db (snd (add v w))
   = SQLiteDb (Some (t ++ [mkRow (next_rowid t) 0 (bind v)])) /\
   (forall s, v = JString s -> bind v = SqlText s)).
Proof.
  intros Hdb.
  destruct (strict_eq_null v || strict_eq_empty v) eqn:Hguard.
  - assert (Hv : v = JNull \/ v = JString EmptyString).
    { destruct v as [| | s]; simpl in Hguard; try discriminate; auto.
      apply String.eqb_eq in Hguard. subst. auto. }
    unfold add. rewrite Hguard. simpl.
    split; [tauto |]. split; [reflexivity |]. tauto.
  - assert (Hv : v <> JNull /\ v <> JString EmptyString).
    { split; intros ->; discriminate. }
    rewrite (add_table v w t Hdb Hguard). simpl.
    split; [split; [discriminate | tauto] |].
    split; [tauto |].
    intros _ _. split; [reflexivity |]. split; [reflexivity |].
    intros s ->. reflexivity.
Qed.

Lemma add_guard_rejects_only_null_and_empty_witness :
  db start = SQLiteDb (Some []) /\
  db (snd (add (JString " ") start))
  = SQLiteDb (Some ([] ++ [mkRow 1 0 (SqlText " ")])) /\
  db (snd (add JUndefined start))
  = SQLiteDb (Some ([] ++ [mkRow 1 0 SqlNull])).
Proof.
  split; [reflexivity |]. split.
  - refine (proj1 (proj2 (proj2 (proj2
      (add_guard_rejects_only_null_and_empty (JString " ") start []
         eq_refl)) _ _))); discriminate.
  - refine (proj1 (proj2 (proj2 (proj2
      (add_guard_rejects_only_null_and_empty JUndefined start []
         eq_refl)) _ _))); discriminate.
Defined.

(** ** Sequences: the done flag and the invariant *)

Lemma table_of_perform (o : Op) (w : World) :
  table_of (perform o w)
  = match db w with
    | SQLiteDb (Some t) => table_after o t
    | _ => []
    end.
Proof.
  destruct (db w) as [| [t |]] eqn:Hdb.
  - assert (H : perform o w = w).
    { destruct o as [v | p | i | i]; simpl;
        unfold add, Items_update, onPress_todo, onPress_done, transaction;
        rewrite Hdb; try reflexivity.
      destruct (strict_eq_null v || strict_eq_empty v); reflexivity. }
    rewrite H. unfold table_of. rewrite Hdb. reflexivity.
  - apply table_of_db, perform_table, Hdb.
  - assert (H : db (perform o w) = SQLiteDb None).
    { destruct o as [v | p | i | i]; simpl;
        unfold add, Items_update, onPress_todo, onPress_done, transaction;
        try (destruct (strict_eq_null v || strict_eq_empty v); simpl);
        rewrite ?Hdb; reflexivity. }
    unfold table_of. rewrite H. reflexivity.
Qed.

Lemma unique_ids_same_row (t : Table) (a b : Row) :
  unique_ids t -> In a t -> In b t -> id a = id b -> a = b.
Proof.
  unfold unique_ids. induction t as [| x t IH]; simpl; [contradiction |].
  intros Hnd Ha Hb Heq. inversion Hnd as [| ? ? Hnotin Hnd']; subst.
  destruct Ha as [-> | Ha], Hb as [-> | Hb].
  - reflexivity.
  - exfalso. apply Hnotin. rewrite Heq. apply in_map. exact Hb.
  - exfalso. apply Hnotin. rewrite <- Heq. apply in_map. exact Ha.
  - apply IH; assumption.
Qed.

Lemma In_table_after (o : Op) (t : Table) (x : Row) :
  In x (table_after o t) ->
  (exists y, In y t /\ id x = id y /\ value x = value y /\
             (x = y \/ done x = 1)) \/
  (exists v, o = Create v /\ x = mkRow (next_rowid t) 0 (bind v)).
Proof.
  destruct o as [v | p | i | i]; simpl.
  - destruct (strict_eq_null v || strict_eq_empty v).
    + intros Hin. left. exists x. auto.
    + rewrite in_app_iff. simpl. intros [Hin | [<- | []]].
      * left. exists x. auto.
      * right. exists v. auto.
  - intros Hin. left. exists x. auto.
  - rewrite in_map_iff. intros [y [<- Hin]]. left. exists y.
    rewrite id_set_done, value_set_done.
    repeat split; [exact Hin |].
    unfold set_done. destruct (id y =? i); simpl; auto.
  - rewrite filter_In. intros [Hin _]. left. exists x. auto.
Qed.

Lemma max_rowid_attained (t : Table) (mx : Z) :
  max_rowid t = Some mx -> exists r, In r t /\ id r = mx.
Proof.
  revert mx. induction t as [| x t IH]; simpl; [discriminate |].
  intros mx. destruct (max_rowid t) as [m |].
  - intros H. injection H as <-.
    destruct (Z.max_spec (id x) m) as [[_ ->] | [_ ->]].
    + destruct (IH m eq_refl) as [r [Hr Hid]]. exists r. auto.
    + exists x. auto.
  - intros H. injection H as <-. exists x. auto.
Qed.

Lemma next_rowid_empty : next_rowid [] = 1.
Proof. reflexivity. Qed.

Lemma next_rowid_largest (t : Table) (m : Row) :
  In m t -> (forall r, In r t -> id r <= id m) -> next_rowid t = id m + 1.
Proof.
  intros Hm Hmax. unfold next_rowid.
  destruct (max_rowid_bound t m Hm) as [mx [Hmx Hle]]. rewrite Hmx.
  destruct (max_rowid_attained t mx Hmx) as [r [Hr <-]].
  pose proof (Hmax r Hr). lia.
Qed.

(** C6 (as amended). In every reachable state and for every operation:
    a stored row whose id is still stored afterwards has the same
    value, and its [done] is what it was or 1, so a [done] of 1 stays
    1; a row whose id was not stored before the operation can only come
    from [add], starts with [done = 0], and its id is 1 on an empty
    table and otherwise the largest stored id plus one.  Querying,
    marking and deleting therefore never add an item, and an [add]
    that passes its guard appends one row under an id that no stored
    row has.  Nothing keeps the id of a deleted item from being given
    out again. *)
Theorem done_flag_is_one_way (w : World) (o : Op) :
  reachable w ->
  (forall r r', In r (table_of w) -> In r' (table_of (perform o w)) ->
                id r' = id r ->
                value r' = value r /\
                (done r' = done r \/ done r' = 1) /\
                (done r = 1 -> done r' = 1)) /\
  (forall r', In r' (table_of (perform o w)) ->
              ~ In (id r') (map id (table_of w)) ->
              done r' = 0 /\
              (exists v, o = Create v /\ value r' = bind v) /\
              (table_of w = [] -> id r' = 1) /\
              (forall m, In m (table_of w) ->
                         (forall r, In r (table_of w) -> id r <= id m) ->
                         id r' = id m + 1)) /\
  (forall v, strict_eq_null v || strict_eq_empty v = false ->
     exists n,
       table_of (perform (Create v) w)
       = table_of w ++ [mkRow n 0 (bind v)] /\
       ~ In n (map id (table_of w)) /\
       (table_of w = [] -> n = 1) /\
       (forall m, In m (table_of w) ->
                  (forall r, In r (table_of w) -> id r <= id m) ->
                  n = id m + 1)).
Proof.
  intros Hre.
  destruct (reachable_has_table _ w Hre) as [t Hdb].
  destruct (reachable_unique_flags _ w Hre) as [Huniq _].
  rewrite !table_of_perform, Hdb. rewrite (table_of_db w t Hdb) in *.
  split; [| split].
  - intros r r' Hr Hr' Hid.
    destruct (In_table_after o t r' Hr')
      as [[y [Hy [Hidy [Hval Hsame]]]] | [v [_ ->]]].
    + assert (y = r) as ->.
      { apply (unique_ids_same_row t); [assumption .. | congruence]. }
      split; [exact Hval |].
      destruct Hsame as [-> | H1]; auto.
    + simpl in Hid. pose proof (next_rowid_above t r Hr). lia.
  - intros r' Hr' Hnew.
    destruct (In_table_after o t r' Hr')
      as [[y [Hy [Hidy _]]] | [v [-> ->]]].
    + exfalso. apply Hnew. rewrite Hidy. apply in_map. exact Hy.
    + simpl. split; [reflexivity |].
      split; [exists v; split; reflexivity |].
      split; [intros ->; apply next_rowid_empty |].
      apply next_rowid_largest.
  - intros v Hguard. exists (next_rowid t).
    rewrite table_of_perform, Hdb. simpl. rewrite Hguard.
    split; [reflexivity |]. split; [apply next_rowid_fresh |].
    split; [intros ->; apply next_rowid_empty |].
    apply next_rowid_largest.
Qed.

Lemma done_flag_is_one_way_witness :
  let w := perform (MarkDone 1) (perform (Create (JString "a")) start) in
  let w' := perform (Create (JString "b")) w in
  reachable w /\
  table_of w = [mkRow 1 1 (SqlText "a")] /\
  table_of w' = [mkRow 1 1 (SqlText "a"); mkRow 2 0 (SqlText "b")] /\
  exists n,
    table_of w' = table_of w ++ [mkRow n 0 (SqlText "b")] /\
    ~ In n (map id (table_of w)) /\
    (table_of w = [] -> n = 1) /\
    (forall m, In m (table_of w) ->
               (forall r, In r (table_of w) -> id r <= id m) ->
               n = id m + 1).
Proof.
  assert (Hre : reachable
                  (perform (MarkDone 1)
                     (perform (Create (JString "a")) start))).
  { unfold reachable. repeat (apply reach_step; [| exact I]).
    apply reach_start. }
  split; [exact Hre |]. split; [reflexivity |]. split; [reflexivity |].
  exact (proj2 (proj2
           (done_flag_is_one_way _ (Create (JString "b")) Hre))
           (JString "b") eq_refl).
Defined.

(** C6 as stated fails in its last part: on the empty store,
    [add("a")], deleting id 1 and [add("a")] again bring back the very
    row that was deleted, same id, same value, pending; and after
    [add("a")], marking 1 done and deleting 1, a further [add] makes id
    1 a pending item again. *)
Lemma create_reuses_deleted_id :
  ~ deleted_rows_stay_deleted /\
  table_of (run [Create (JString "a")] start) = [mkRow 1 0 (SqlText "a")] /\
  table_of (run [Create (JString "a"); Delete 1] start) = [] /\
  table_of (run [Create (JString "a"); Delete 1; Create (JString "a")] start)
  = [mkRow 1 0 (SqlText "a")] /\
  table_of (run [Create (JString "a"); MarkDone 1] start)
  = [mkRow 1 1 (SqlText "a")] /\
  table_of (run [Create (JString "a"); MarkDone 1; Delete 1;
                 Create (JString "b")] start)
  = [mkRow 1 0 (SqlText "b")].
Proof.
  split; [| repeat split].
  intros H.
  apply (H [Create (JString "a")] (Delete 1) [Create (JString "a")]
           (mkRow 1 0 (SqlText "a"))).
  - left. reflexivity.
  - intros [].
  - left. reflexivity.
Qed.

Lemma table_property_step (P : Table -> Prop) (o : Op) (w : World) :
  P [] -> (forall t, P t -> P (table_after o t)) ->
  P (table_of w) -> P (table_of (perform o w)).
Proof.
  intros Hnil Hafter. rewrite table_of_perform. unfold table_of.
  destruct (db w) as [| [t |]]; auto.
Qed.

Lemma values_nonempty_step (o : Op) (w : World) :
  from_text_input o -> values_nonempty (table_of w) ->
  values_nonempty (table_of (perform o w)).
Proof.
  intros Hin. apply (table_property_step values_nonempty); [constructor |].
  intros t. apply values_nonempty_after. exact Hin.
Qed.

(** The screen only ever calls [add] with [this.state.text], which is
    [null] or a string: an event acts on the table as an operation
    that satisfies [from_text_input]. *)
Lemma text_after_add (v : jsval) (w : World) : text (snd (add v w)) = text w.
Proof.
  unfold add. destruct (strict_eq_null v || strict_eq_empty v) eqn:Hguard;
    [reflexivity |].
  destruct (db w) as [| [t |]] eqn:Hdb.
  - unfold transaction. rewrite Hdb. reflexivity.
  - pose proof (add_table v w t Hdb Hguard) as H. unfold add in H.
    rewrite Hguard in H. simpl in H. injection H as ->. reflexivity.
  - unfold transaction. rewrite Hdb. reflexivity.
Qed.

Lemma text_after_press (i : Z) (w : World) :
  text (onPress_todo i w) = text w /\ text (onPress_done i w) = text w.
Proof.
  destruct (db w) as [| [t |]] eqn:Hdb.
  - unfold onPress_todo, onPress_done, transaction. rewrite Hdb. auto.
  - rewrite (onPress_todo_table i w t Hdb), (onPress_done_table i w t Hdb).
    auto.
  - unfold onPress_todo, onPress_done, transaction. rewrite Hdb. auto.
Qed.

Lemma handle_acts_as_operation (e : Event) (w : World) :
  text w <> JUndefined ->
  text (handle e w) <> JUndefined /\
  exists o, from_text_input o /\
            table_of (handle e w) = table_of (perform o w).
Proof.
  intros Htext. destruct e as [s | | i | i]; simpl.
  - split; [discriminate |]. exists (ListByStatus false). split; [exact I |].
    rewrite table_of_perform. unfold table_of. simpl.
    destruct (db w) as [| [t |]]; reflexivity.
  - split; [discriminate |]. exists (Create (text w)).
    split; [destruct (text w); simpl; auto |]. reflexivity.
  - split; [rewrite (proj1 (text_after_press i w)); exact Htext |].
    exists (MarkDone i). split; [exact I | reflexivity].
  - split; [rewrite (proj2 (text_after_press i w)); exact Htext |].
    exists (Delete i). split; [exact I | reflexivity].
Qed.

Lemma on_screen_invariant (w : World) :
  on_screen w ->
  text w <> JUndefined /\
  unique_ids (table_of w) /\ done_is_flag (table_of w) /\
  values_nonempty (table_of w).
Proof.
  induction 1 as [| e w _ [Htext [Hu [Hd Hv]]]].
  - split; [discriminate |]. repeat split; constructor.
  - destruct (handle_acts_as_operation e w Htext) as [Ht' [o [Ho ->]]].
    split; [exact Ht' |]. split; [| split].
    + revert Hu. apply (table_property_step unique_ids); [constructor |].
      intros t. apply unique_ids_after.
    + revert Hd. apply (table_property_step done_is_flag); [constructor |].
      intros t. apply done_is_flag_after.
    + apply values_nonempty_step; assumption.
Qed.

(** C7 (as amended). Every operation preserves unique ids and
    [done] in {0, 1}, and every operation other than [add(undefined)]
    preserves that each value is a non-empty text.  So in every state
    reached from the empty store no two rows share an id and every
    [done] is 0 or 1, and in every state reached with [add] called on
    strings or [null], as the text input calls it (so in every state
    the screen can reach), no row has an empty or missing value. *)
Theorem operations_preserve_invariant :
  (forall o w, unique_ids (table_of w) ->
               unique_ids (table_of (perform o w))) /\
  (forall o w, done_is_flag (table_of w) ->
               done_is_flag (table_of (perform o w))) /\
  (forall o w, from_text_input o -> values_nonempty (table_of w) ->
               values_nonempty (table_of (perform o w))) /\
  (forall w, reachable w ->
             unique_ids (table_of w) /\ done_is_flag (table_of w)) /\
  (forall w, reachable_by from_text_input w ->
             values_nonempty (table_of w)) /\
  (forall w, on_screen w -> values_nonempty (table_of w)).
Proof.
  split; [| split; [| split; [| split; [| split]]]].
  - intros o w. apply (table_property_step unique_ids); [constructor |].
    intros t. apply unique_ids_after.
  - intros o w. apply (table_property_step done_is_flag); [constructor |].
    intros t. apply done_is_flag_after.
  - exact values_nonempty_step.
  - intros w. apply reachable_unique_flags.
  - intros w. induction 1 as [| o w _ IH Hin]; [constructor |].
    apply values_nonempty_step; assumption.
  - intros w Hw. apply (on_screen_invariant w Hw).
Qed.

Lemma operations_preserve_invariant_witness :
  let w := perform (MarkDone 1) (perform (Create (JString "a")) start) in
  reachable_by from_text_input w /\
  table_of w = [mkRow 1 1 (SqlText "a")] /\
  values_nonempty (table_of w).
Proof.
  assert (Hre : reachable_by from_text_input
                  (perform (MarkDone 1)
                     (perform (Create (JString "a")) start))).
  { repeat (apply reach_step; [| exact I]). apply reach_start. }
  split; [exact Hre |]. split; [reflexivity |].
  exact (proj1 (proj2 (proj2 (proj2 (proj2 operations_preserve_invariant))))
           _ Hre).
Defined.

(** C7 as stated fails for the values: [add(undefined)] on the empty
    store is one operation, and the row it stores has no value. *)
Lemma add_undefined_stores_no_value :
  reachable (perform (Create JUndefined) start) /\
  table_of (perform (Create JUndefined) start) = [mkRow 1 0 SqlNull] /\
  ~ values_nonempty (table_of (perform (Create JUndefined) start)).
Proof.
  split; [| split].
  - apply reach_step; [apply reach_start | exact I].
  - reflexivity.
  - intros H. inversion H as [| r l [s [Hs _]] _]; subst. discriminate.
Qed.

(** * Further properties of the handlers *)

(** ** Without the table, and on the web *)

(** X1. While the file has no [items] table, every statement fails with
    the missing-table error: a query of either list changes nothing
    and logs nothing (it has no error callback), a press and an [add]
    that passes its guard log that one error, insert nothing and do not
    refresh the lists; [componentDidMount] alone gets out of this
    state. *)
Theorem handlers_without_table (w : World) (v : jsval) (i : Z) (p : bool) :
  db w = SQLiteDb None ->
  Items_update p w = w /\
  update w = w /\
  onPress_todo i w = log_error NoSuchTable w /\
  onPress_done i w = log_error NoSuchTable w /\
  (strict_eq_null v || strict_eq_empty v = false ->
   add v w = (ReturnedUndefined, log_error NoSuchTable w)) /\
  db (log_error NoSuchTable w) = SQLiteDb None /\
  db (componentDidMount w) = SQLiteDb (Some []).
Proof.
  intros Hdb.
  assert (Hq : forall q, Items_update q w = w).
  { intros q. unfold Items_update, transaction. rewrite Hdb. simpl.
    rewrite <- Hdb. apply with_db_same. }
  split; [apply Hq |].
  split; [unfold update; rewrite (Hq false); apply Hq |].
  unfold onPress_todo, onPress_done, add, componentDidMount, transaction.
  rewrite Hdb. simpl. rewrite <- Hdb, with_db_same.
  split; [reflexivity |]. split; [reflexivity |].
  split; [intros ->; reflexivity |].
  split; reflexivity.
Qed.

Lemma handlers_without_table_witness :
  db (mkWorld (SQLiteDb None) JNull None None []) = SQLiteDb None /\
  onPress_todo 1 (mkWorld (SQLiteDb None) JNull None None [])
  = mkWorld (SQLiteDb None) JNull None None [LogError NoSuchTable].
Proof.
  split; [reflexivity |].
  exact (proj1 (proj2 (proj2
           (handlers_without_table
              (mkWorld (SQLiteDb None) JNull None None []) JNull 1 false
              eq_refl)))).
Defined.

(** X2. With the handle [openDatabase] returns on the web, nothing ever
    happens: mounting, querying, refreshing, adding and pressing all
    return the state they were given, so no success callback runs and
    no list is ever filled; an event can only change the typed text. *)
Theorem web_stub_does_nothing (w : World) (v : jsval) (i : Z) (p : bool) :
  db w = openDatabase Web (file_of w) ->
  componentDidMount w = w /\
  Items_update p w = w /\
  update w = w /\
  snd (add v w) = w /\
  onPress_todo i w = w /\
  onPress_done i w = w /\
  (forall e, handle e w = setText (text (handle e w)) w).
Proof.
  simpl. intros Hdb.
  assert (Hq : forall q, Items_update q w = w).
  { intros q. unfold Items_update, transaction. rewrite Hdb. reflexivity. }
  assert (Hadd : forall x, snd (add x w) = w).
  { intros x. unfold add, transaction. rewrite Hdb.
    destruct (strict_eq_null x || strict_eq_empty x); reflexivity. }
  assert (Ht : onPress_todo i w = w).
  { unfold onPress_todo, transaction. rewrite Hdb. reflexivity. }
  assert (Hd : onPress_done i w = w).
  { unfold onPress_done, transaction. rewrite Hdb. reflexivity. }
  split; [unfold componentDidMount, transaction; rewrite Hdb; reflexivity |].
  split; [apply Hq |].
  split; [unfold update; rewrite (Hq false); apply Hq |].
  split; [apply Hadd |]. split; [exact Ht |]. split; [exact Hd |].
  intros [s | | j | j]; simpl.
  - reflexivity.
  - unfold onSubmitEditing. rewrite Hadd. reflexivity.
  - unfold onPress_todo, transaction. rewrite Hdb. destruct w; reflexivity.
  - unfold onPress_done, transaction. rewrite Hdb. destruct w; reflexivity.
Qed.

Lemma web_stub_does_nothing_witness :
  db (launch Web None) = openDatabase Web (file_of (launch Web None)) /\
  snd (add (JString "a") (launch Web None)) = launch Web None.
Proof.
  split; [reflexivity |].
  exact (proj1 (proj2 (proj2 (proj2
           (web_stub_does_nothing (launch Web None) (JString "a") 0 false
              eq_refl))))).
Defined.

(** ** Refreshing *)

(** X3. In every state a refresh only touches the two snapshots (the
    database, the typed text and the console stay as they are), the
    two queries can run in either order, and refreshing twice is
    refreshing once. *)
Theorem update_is_read_only_and_idempotent (w : World) :
  db (update w) = db w /\
  text (update w) = text w /\
  console (update w) = console w /\
  Items_update false (Items_update true w) = update w /\
  update (update w) = update w.
Proof.
  destruct (db w) as [| [t |]] eqn:Hdb.
  - assert (Hq : forall q, Items_update q w = w).
    { intros q. unfold Items_update, transaction. rewrite Hdb. reflexivity. }
    unfold update. repeat rewrite Hq. repeat split; auto.
  - assert (Hu : update w = mkWorld (db w) (text w)
                              (Some (rows_where_done 0 t))
                              (Some (rows_where_done 1 t)) (console w))
      by (apply update_table; exact Hdb).
    split; [rewrite Hu; exact Hdb |].
    split; [rewrite Hu; reflexivity |].
    split; [rewrite Hu; reflexivity |].
    split.
    + rewrite (Items_update_table true w t Hdb).
      rewrite (Items_update_table false _ t) by exact Hdb.
      rewrite Hu. reflexivity.
    + rewrite (update_table (update w) t) by (rewrite Hu; exact Hdb).
      rewrite Hu. reflexivity.
  - assert (Hq : forall q, Items_update q w = w).
    { intros q. unfold Items_update, transaction. rewrite Hdb. simpl.
      rewrite <- Hdb. apply with_db_same. }
    unfold update. repeat rewrite Hq. repeat split; auto.
Qed.

(** ** Pressing an item *)

Lemma delete_removes_one (t : Table) (r : Row) :
  unique_ids t -> In r t ->
  S (List.length (filter (fun x => negb (id x =? id r)) t)) = List.length t.
Proof.
  unfold unique_ids. induction t as [| x t IH]; simpl; [contradiction |].
  intros Hu Hin. apply NoDup_cons_iff in Hu. destruct Hu as [Hx Hu].
  destruct (Z.eqb_spec (id x) (id r)) as [Heq | Hne]; simpl.
  - f_equal. f_equal. apply delete_absent. intros y Hy Hyr.
    apply Hx. rewrite Heq, <- Hyr. apply in_map. exact Hy.
  - f_equal. apply IH; [exact Hu |].
    destruct Hin as [-> | Hin]; [contradiction Hne; reflexivity | exact Hin].
Qed.

Lemma mark_moves_one (t : Table) (r : Row) :
  unique_ids t -> In r t -> done r = 0 ->
  S (List.length (rows_where_done 0 (map (set_done (id r)) t)))
  = List.length (rows_where_done 0 t) /\
  List.length (rows_where_done 1 (map (set_done (id r)) t))
  = S (List.length (rows_where_done 1 t)).
Proof.
  unfold unique_ids. induction t as [| x t IH]; [contradiction |].
  intros Hu Hin Hdone. simpl in Hu.
  apply NoDup_cons_iff in Hu. destruct Hu as [Hx Hu].
  unfold rows_where_done in *. simpl map. simpl filter.
  destruct (Z.eqb_spec (id x) (id r)) as [Heq | Hne].
  - assert (x = r) as ->.
    { destruct Hin as [H | Hin]; [exact H |].
      exfalso. apply Hx. rewrite Heq. apply in_map. exact Hin. }
    assert (Hs : set_done (id r) r = mkRow (id r) 1 (value r)).
    { unfold set_done. rewrite Z.eqb_refl. reflexivity. }
    rewrite Hs, Hdone. simpl.
    rewrite set_done_absent; [split; reflexivity |].
    intros y Hy Hyr. apply Hx. rewrite <- Hyr. apply in_map. exact Hy.
  - assert (Hin' : In r t).
    { destruct Hin as [-> | Hin]; [contradiction Hne; reflexivity | exact Hin]. }
    assert (Hs : set_done (id r) x = x).
    { unfold set_done.
      destruct (Z.eqb_spec (id x) (id r)); [contradiction | reflexivity]. }
    rewrite Hs. destruct (IH Hu Hin' Hdone) as [IH0 IH1].
    destruct (done x =? 0), (done x =? 1); simpl; split; lia.
Qed.

(** X4. On every state of the items table, pressing an item of the done
    list deletes the rows with that id and nothing else: no row with
    the id is left in the table or in either refreshed list, the rows
    with another id are exactly those that were there, and both lists
    are refreshed from the new table.  When ids are unique and the id
    is stored, the table has exactly one row less. *)
Theorem onPress_done_deletes_item (w : World) (t : Table) (i : Z) :
  db w = SQLiteDb (Some t) ->
  let w' := onPress_done i w in
  (forall x, In x (table_of w') <-> In x t /\ id x <> i) /\
  todo_items w' = Some (rows_where_done 0 (table_of w')) /\
  done_items w' = Some (rows_where_done 1 (table_of w')) /\
  (forall p l x, items_of p w' = Some l -> In x l -> id x <> i) /\
  console w' = console w /\
  (forall r, unique_ids t -> In r t -> id r = i ->
             S (List.length (table_of w')) = List.length t).
Proof.
  intros Hdb w'.
  pose proof (onPress_done_table i w t Hdb) as Hw'. simpl in Hw'.
  fold w' in Hw'.
  assert (Ht' : table_of w' = filter (fun r => negb (id r =? i)) t).
  { rewrite Hw'. reflexivity. }
  assert (Hin : forall x, In x (table_of w') <-> In x t /\ id x <> i).
  { intros x. rewrite Ht', filter_In, negb_true_iff, Z.eqb_neq. reflexivity. }
  split; [exact Hin |].
  split; [rewrite Ht', Hw'; reflexivity |].
  split; [rewrite Ht', Hw'; reflexivity |].
  split; [| split].
  - intros p l x Hl Hx.
    assert (Hxt : In x (table_of w')).
    { rewrite Hw' in Hl. rewrite Ht'.
      destruct p; simpl in Hl; injection Hl as <-;
        apply In_rows_where_done in Hx; tauto. }
    apply Hin in Hxt. tauto.
  - rewrite Hw'. reflexivity.
  - intros r Hu Hr <-. rewrite Ht'. apply delete_removes_one; assumption.
Qed.

Lemma onPress_done_deletes_item_witness :
  let w := onPress_todo 1 (snd (add (JString "a") start)) in
  db w = SQLiteDb (Some [mkRow 1 1 (SqlText "a")]) /\
  done_items (onPress_done 1 w) = Some [].
Proof.
  split; [reflexivity |].
  exact (proj1 (proj2 (proj2
           (onPress_done_deletes_item
              (onPress_todo 1 (snd (add (JString "a") start)))
              [mkRow 1 1 (SqlText "a")] 1 eq_refl)))).
Defined.

(** X5. On a table with unique ids, pressing a pending item moves exactly
    one item: the pending selection has one row less, the done
    selection one row more, and the ids of the table and their order
    are the same. *)
Theorem onPress_todo_moves_one (w : World) (t : Table) (r : Row) :
  db w = SQLiteDb (Some t) ->
  unique_ids t -> In r t -> done r = 0 ->
  let w' := onPress_todo (id r) w in
  map id (table_of w') = map id t /\
  S (List.length (rows_where_done 0 (table_of w')))
  = List.length (rows_where_done 0 t) /\
  List.length (rows_where_done 1 (table_of w'))
  = S (List.length (rows_where_done 1 t)).
Proof.
  intros Hdb Hu Hin Hdone w'.
  assert (Ht' : table_of w' = map (set_done (id r)) t).
  { unfold w'. rewrite (onPress_todo_table (id r) w t Hdb). reflexivity. }
  rewrite Ht'. split; [apply ids_set_done |].
  apply mark_moves_one; assumption.
Qed.

Lemma onPress_todo_moves_one_witness :
  let w := snd (add (JString "a") start) in
  let r := mkRow 1 0 (SqlText "a") in
  db w = SQLiteDb (Some [r]) /\ unique_ids [r] /\ In r [r] /\ done r = 0 /\
  map id (table_of (onPress_todo 1 w)) = [1].
Proof.
  assert (Hu : unique_ids [mkRow 1 0 (SqlText "a")]).
  { unfold unique_ids. simpl. apply NoDup_cons; [intros [] | apply NoDup_nil]. }
  split; [reflexivity |]. split; [exact Hu |].
  split; [left; reflexivity |]. split; [reflexivity |].
  exact (proj1 (onPress_todo_moves_one
                  (snd (add (JString "a") start)) [mkRow 1 0 (SqlText "a")]
                  (mkRow 1 0 (SqlText "a"))
                  eq_refl Hu (or_introl eq_refl) eq_refl)).
Defined.

Lemma set_done_twice (i : Z) (t : Table) :
  map (set_done i) (map (set_done i) t) = map (set_done i) t.
Proof.
  rewrite map_map. apply map_ext. intros r. unfold set_done at 2.
  destruct (Z.eqb_spec (id r) i) as [Heq | Hne].
  - unfold set_done. simpl. rewrite Heq, Z.eqb_refl. reflexivity.
  - unfold set_done. destruct (Z.eqb_spec (id r) i); [contradiction |].
    reflexivity.
Qed.

Lemma delete_after_mark (i : Z) (t : Table) :
  filter (fun r => negb (id r =? i)) (map (set_done i) t)
  = filter (fun r => negb (id r =? i)) t.
Proof.
  induction t as [| x t IH]; simpl; [reflexivity |].
  rewrite id_set_done, IH.
  destruct (Z.eqb_spec (id x) i) as [Heq | Hne]; simpl; [reflexivity |].
  f_equal. unfold set_done.
  destruct (Z.eqb_spec (id x) i); [contradiction | reflexivity].
Qed.

Lemma deleted_id_absent (i : Z) (t : Table) (r : Row) :
  In r (filter (fun x => negb (id x =? i)) t) -> id r <> i.
Proof.
  rewrite filter_In, negb_true_iff, Z.eqb_neq. tauto.
Qed.

(** X6. On every state of the items table the two press handlers compose
    as follows: pressing the same pending item twice is pressing it
    once, deleting the same id twice is deleting it once, marking an
    id done and then deleting it is deleting it, and marking a deleted
    id done changes nothing. *)
Theorem press_handlers_compose (w : World) (t : Table) (i : Z) :
  db w = SQLiteDb (Some t) ->
  onPress_todo i (onPress_todo i w) = onPress_todo i w /\
  onPress_done i (onPress_done i w) = onPress_done i w /\
  onPress_done i (onPress_todo i w) = onPress_done i w /\
  onPress_todo i (onPress_done i w) = onPress_done i w.
Proof.
  intros Hdb.
  pose proof (onPress_todo_table i w t Hdb) as Ht. simpl in Ht.
  pose proof (onPress_done_table i w t Hdb) as Hd. simpl in Hd.
  assert (Hdbt : db (onPress_todo i w) = SQLiteDb (Some (map (set_done i) t))).
  { rewrite Ht. reflexivity. }
  assert (Hdbd : db (onPress_done i w)
                 = SQLiteDb (Some (filter (fun r => negb (id r =? i)) t))).
  { rewrite Hd. reflexivity. }
  split; [| split; [| split]].
  - rewrite (onPress_todo_table i _ _ Hdbt). simpl.
    rewrite set_done_twice, Ht. reflexivity.
  - rewrite (onPress_done_table i _ _ Hdbd). simpl.
    rewrite (delete_absent i (filter _ t)) by apply deleted_id_absent.
    rewrite Hd. reflexivity.
  - rewrite (onPress_done_table i _ _ Hdbt). simpl.
    rewrite delete_after_mark, Ht, Hd. reflexivity.
  - rewrite (onPress_todo_table i _ _ Hdbd). simpl.
    rewrite (set_done_absent i (filter _ t)) by apply deleted_id_absent.
    rewrite Hd. reflexivity.
Qed.

Lemma press_handlers_compose_witness :
  let w := snd (add (JString "a") start) in
  db w = SQLiteDb (Some [mkRow 1 0 (SqlText "a")]) /\
  onPress_todo 1 (onPress_todo 1 w) = onPress_todo 1 w.
Proof.
  split; [reflexivity |].
  exact (proj1 (press_handlers_compose
                  (snd (add (JString "a") start))
                  [mkRow 1 0 (SqlText "a")] 1 eq_refl)).
Defined.

(** ** The text input *)

(** X7. In every state, submitting leaves the input empty ([text] is
    [null]), and a second submit right after the first changes
    nothing at all: the reset text is what the guard of [add]
    rejects, so a repeated submit cannot store the item twice. *)
Theorem onSubmitEditing_clears_input (w : World) :
  text (onSubmitEditing w) = JNull /\
  onSubmitEditing (onSubmitEditing w) = onSubmitEditing w.
Proof.
  unfold onSubmitEditing at 1 2.
  set (w1 := snd (add (text w) w)).
  split; [reflexivity |].
  unfold onSubmitEditing. simpl. reflexivity.
Qed.

(** X8. On every state of the items table, typing [s] and submitting
    stores the text as it was typed, blanks included, in one new
    pending row, refreshes both lists from the new table and empties
    the input; when nothing was typed ([s] is the empty string) only
    the input is reset. *)
Theorem type_and_submit (w : World) (t : Table) (s : string) :
  db w = SQLiteDb (Some t) ->
  let w' := handle SubmitEditing (handle (ChangeText s) w) in
  text w' = JNull /\
  (s = EmptyString -> w' = setText JNull w) /\
  (s <> EmptyString ->
   let t' := t ++ [mkRow (next_rowid t) 0 (SqlText s)] in
   w' = mkWorld (SQLiteDb (Some t')) JNull
          (Some (rows_where_done 0 t')) (Some (rows_where_done 1 t'))
          (console w ++ [LogRows t'])).
Proof.
  intros Hdb w'. split; [reflexivity |]. split.
  - intros ->. reflexivity.
  - intros Hs t'. unfold w'. simpl. unfold onSubmitEditing.
    change (text (setText (JString s) w)) with (JString s).
    rewrite (add_table (JString s) (setText (JString s) w) t).
    + reflexivity.
    + exact Hdb.
    + simpl. apply String.eqb_neq. exact Hs.
Qed.

Lemma type_and_submit_witness :
  db start = SQLiteDb (Some []) /\
  text (handle SubmitEditing (handle (ChangeText " ") start)) = JNull.
Proof.
  split; [reflexivity |].
  exact (proj1 (type_and_submit start [] " " eq_refl)).
Defined.

(** ** What no operation does *)

(** X9. In every state and for every operation, a row of the table after
    the operation is either the row [add] has just inserted (next row
    id, [done = 0], the bound argument) or a row that was there before
    with the same id and the same value, unchanged or with [done] set
    to 1: no operation edits an id or a value or sets [done] to
    anything but 1. *)
Theorem rows_only_added_or_marked (w : World) (o : Op) (x : Row) :
  In x (table_of (perform o w)) ->
  (exists y, In y (table_of w) /\ id x = id y /\ value x = value y /\
             (x = y \/ done x = 1)) \/
  (exists v, o = Create v /\
             x = mkRow (next_rowid (table_of w)) 0 (bind v)).
Proof.
  rewrite table_of_perform. unfold table_of.
  destruct (db w) as [| [t |]]; try contradiction.
  apply In_table_after.
Qed.

Lemma rows_only_added_or_marked_witness :
  let w := perform (Create (JString "a")) start in
  In (mkRow 1 1 (SqlText "a")) (table_of (perform (MarkDone 1) w)) /\
  ((exists y, In y (table_of w) /\ 1 = id y /\ SqlText "a" = value y /\
              (mkRow 1 1 (SqlText "a") = y \/ 1 = 1)) \/
   (exists v, MarkDone 1 = Create v /\
              mkRow 1 1 (SqlText "a")
              = mkRow (next_rowid (table_of w)) 0 (bind v))).
Proof.
  split; [left; reflexivity |].
  exact (rows_only_added_or_marked
           (perform (Create (JString "a")) start) (MarkDone 1)
           (mkRow 1 1 (SqlText "a")) (or_introl eq_refl)).
Defined.

(** ** What the screen shows *)

Lemma setText_same (w : World) : setText (text w) w = w.
Proof. destruct w; reflexivity. Qed.

(** Up to the typed text, an event is an operation. *)
Lemma handle_as_perform (e : Event) (w : World) :
  exists o, handle e w = setText (text (handle e w)) (perform o w).
Proof.
  destruct e as [s | | i | i]; simpl.
  - exists (Create JNull). reflexivity.
  - exists (Create (text w)). reflexivity.
  - exists (MarkDone i). simpl. symmetry. apply setText_same.
  - exists (Delete i). simpl. symmetry. apply setText_same.
Qed.

Lemma on_screen_has_table (w : World) :
  on_screen w -> exists t, db w = SQLiteDb (Some t).
Proof.
  induction 1 as [| e w _ [t Ht]].
  - exists []. exact start_table.
  - destruct (handle_as_perform e w) as [o ->].
    exists (table_after o t). simpl. apply perform_table, Ht.
Qed.

Lemma in_sync_perform (o : Op) (w : World) (t : Table) :
  db w = SQLiteDb (Some t) -> in_sync w -> in_sync (perform o w).
Proof.
  intros Hdb Hsync.
  assert (Hfull : forall t' c,
            in_sync (mkWorld (SQLiteDb (Some t')) (text w)
                       (Some (rows_where_done 0 t'))
                       (Some (rows_where_done 1 t')) c)).
  { intros t' c [|]; left; reflexivity. }
  destruct o as [v | q | i | i]; simpl.
  - destruct (strict_eq_null v || strict_eq_empty v) eqn:Hguard.
    + unfold add. rewrite Hguard. exact Hsync.
    + rewrite (add_table v w t Hdb Hguard). apply Hfull.
  - rewrite (Items_update_table q w t Hdb). intros p.
    specialize (Hsync p). unfold table_of in *.
    destruct q, p; simpl in *; rewrite Hdb in *; auto.
  - rewrite (onPress_todo_table i w t Hdb). apply Hfull.
  - rewrite (onPress_done_table i w t Hdb). apply Hfull.
Qed.

Lemma console_perform (o : Op) (w : World) (t : Table) :
  db w = SQLiteDb (Some t) ->
  Forall is_dump (console w) -> Forall is_dump (console (perform o w)).
Proof.
  intros Hdb Hc. destruct o as [v | q | i | i]; simpl.
  - destruct (strict_eq_null v || strict_eq_empty v) eqn:Hguard.
    + unfold add. rewrite Hguard. exact Hc.
    + rewrite (add_table v w t Hdb Hguard). simpl.
      apply Forall_app. split; [exact Hc |].
      constructor; [exact I | constructor].
  - rewrite (Items_update_table q w t Hdb). destruct q; exact Hc.
  - rewrite (onPress_todo_table i w t Hdb). exact Hc.
  - rewrite (onPress_done_table i w t Hdb). exact Hc.
Qed.

Lemma on_screen_in_sync (w : World) : on_screen w -> in_sync w.
Proof.
  induction 1 as [| e w Hw IH].
  - intros p. right. destruct p; split; reflexivity.
  - destruct (on_screen_has_table w Hw) as [t Ht].
    destruct (handle_as_perform e w) as [o ->].
    pose proof (in_sync_perform o w t Ht IH) as Hs.
    intros p. specialize (Hs p). destruct p; exact Hs.
Qed.

(** X10. In every state the screen can reach, and in every state reached
    by operations from the empty store, each list is in step with the
    table: its snapshot is the current selection of its status, or it
    has never been filled and the table is empty.  No sequence of
    events leaves a stale list on the screen. *)
Theorem lists_follow_the_table (w : World) :
  on_screen w \/ reachable w -> in_sync w.
Proof.
  intros [H | H].
  - apply on_screen_in_sync. exact H.
  - induction H as [| o w Hw IH _].
    + intros p. right. destruct p; split; reflexivity.
    + destruct (reachable_has_table _ w Hw) as [t Ht].
      exact (in_sync_perform o w t Ht IH).
Qed.

Lemma lists_follow_the_table_witness :
  on_screen (handle SubmitEditing (handle (ChangeText "a") start)) /\
  in_sync (handle SubmitEditing (handle (ChangeText "a") start)).
Proof.
  assert (H : on_screen
                (handle SubmitEditing (handle (ChangeText "a") start))).
  { repeat apply screen_event. apply screen_start. }
  split; [exact H |].
  exact (lists_follow_the_table _ (or_introl H)).
Defined.

(** X11. In every state the screen can reach, and in every state reached
    by operations from the empty store, the console holds nothing but
    the table dumps of [add]: once [App] has mounted, no statement
    fails and no error callback ever runs. *)
Theorem console_holds_only_dumps (w : World) :
  on_screen w \/ reachable w -> Forall is_dump (console w).
Proof.
  intros [H | H].
  - induction H as [| e w Hw IH].
    + constructor.
    + destruct (on_screen_has_table w Hw) as [t Ht].
      destruct (handle_as_perform e w) as [o ->].
      exact (console_perform o w t Ht IH).
  - induction H as [| o w Hw IH _].
    + constructor.
    + destruct (reachable_has_table _ w Hw) as [t Ht].
      exact (console_perform o w t Ht IH).
Qed.

Lemma console_holds_only_dumps_witness :
  on_screen (handle SubmitEditing (handle (ChangeText "a") start)) /\
  Forall is_dump
    (console (handle SubmitEditing (handle (ChangeText "a") start))).
Proof.
  assert (H : on_screen
                (handle SubmitEditing (handle (ChangeText "a") start))).
  { repeat apply screen_event. apply screen_start. }
  split; [exact H |].
  exact (console_holds_only_dumps _ (or_introl H)).
Defined.

Lemma render_in_sync (p : bool) (w : World) :
  in_sync w ->
  Items_render p w
  = match rows_where_done (if p then 1 else 0) (table_of w) with
    | [] => None
    | rows => Some (mkSection (if p then "Complete" else "To do")
                      (map pressable_of rows))
    end.
Proof.
  intros Hs. unfold Items_render.
  destruct (Hs p) as [-> | [-> ->]]; [| reflexivity].
  destruct (rows_where_done _ _); reflexivity.
Qed.

Lemma selections_disjoint_ids (t : Table) :
  unique_ids t ->
  NoDup (map id (rows_where_done 0 t) ++ map id (rows_where_done 1 t)).
Proof.
  intros Hu. apply NoDup_app.
  - apply unique_ids_filter. exact Hu.
  - apply unique_ids_filter. exact Hu.
  - intros i H0 H1. apply in_map_iff in H0. apply in_map_iff in H1.
    destruct H0 as [a [Ha Hina]], H1 as [b [Hb Hinb]].
    apply In_rows_where_done in Hina. apply In_rows_where_done in Hinb.
    destruct Hina as [Hina Hda], Hinb as [Hinb Hdb].
    assert (a = b) by (apply (unique_ids_same_row t); congruence).
    subst b. rewrite Hda in Hdb. discriminate.
Qed.

(** X12. In every state the screen can reach, each section is the picture
    of its selection: it is hidden exactly when no stored row has its
    status, otherwise it has its heading and one item per selected
    row, in the order of the table, labelled with the value; every
    stored row is on the screen, in the section of its status; and
    every item on the screen passes the id of a stored row of that
    status to the press handler. *)
Theorem screen_mirrors_table (w : World) (p : bool) :
  on_screen w ->
  let rows := rows_where_done (if p then 1 else 0) (table_of w) in
  (Items_render p w = None <-> rows = []) /\
  (forall sec, Items_render p w = Some sec ->
     heading sec = (if p then "Complete" else "To do")%string /\
     children sec = map pressable_of rows) /\
  (forall r, In r (table_of w) ->
     exists sec, Items_render (truthy (done r)) w = Some sec /\
                 In (pressable_of r) (children sec)) /\
  (forall sec c, Items_render p w = Some sec -> In c (children sec) ->
     exists r, In r (table_of w) /\ done r = (if p then 1 else 0) /\
               pressed_id c = id r /\ key c = id r /\ label c = value r).
Proof.
  intros Hw rows.
  pose proof (on_screen_in_sync w Hw) as Hs.
  assert (Hr : forall q, Items_render q w
            = match rows_where_done (if q then 1 else 0) (table_of w) with
              | [] => None
              | l => Some (mkSection (if q then "Complete" else "To do")
                             (map pressable_of l))
              end) by (intros q; apply render_in_sync; exact Hs).
  split; [| split; [| split]].
  - rewrite Hr. fold rows. destruct rows; split; intros H; try reflexivity;
      discriminate.
  - intros sec. rewrite Hr. fold rows. destruct rows as [| x l] eqn:Hrows;
      [discriminate |].
    intros H. injection H as <-. split; reflexivity.
  - intros r Hin.
    destruct (on_screen_invariant w Hw) as [_ [_ [Hflag _]]].
    unfold done_is_flag in Hflag. rewrite Forall_forall in Hflag.
    assert (Hsel : In r (rows_where_done
                           (if truthy (done r) then 1 else 0) (table_of w))).
    { apply In_rows_where_done. split; [exact Hin |].
      destruct (Hflag r Hin) as [-> | ->]; reflexivity. }
    rewrite Hr.
    set (l := rows_where_done (if truthy (done r) then 1 else 0)
                (table_of w)) in *.
    clearbody l. destruct l as [| x l]; [destruct Hsel |].
    eexists. split; [reflexivity |].
    exact (in_map pressable_of (x :: l) r Hsel).
  - intros sec c. rewrite Hr. fold rows.
    destruct rows as [| x l] eqn:Hrows; [discriminate |].
    intros H Hc. injection H as <-.
    change (In c (map pressable_of (x :: l))) in Hc.
    apply in_map_iff in Hc. destruct Hc as [r [<- Hr']].
    exists r. rewrite <- Hrows in Hr'. apply In_rows_where_done in Hr'.
    destruct Hr' as [Hin Hd]. repeat split; assumption.
Qed.

Lemma screen_mirrors_table_witness :
  let w := handle SubmitEditing (handle (ChangeText "a") start) in
  on_screen w /\
  (Items_render true w = None <-> rows_where_done 1 (table_of w) = []).
Proof.
  assert (H : on_screen
                (handle SubmitEditing (handle (ChangeText "a") start))).
  { repeat apply screen_event. apply screen_start. }
  split; [exact H |].
  exact (proj1 (screen_mirrors_table _ true H)).
Defined.

(** X13. In every state the screen can reach, the keys of all rendered
    items, both sections together, are pairwise different, and every
    item has the style of its section: the pending style under
    "To do", the done style under "Complete". *)
Theorem rendered_keys_unique_styles_match (w : World) :
  on_screen w ->
  NoDup (keys_of (Items_render false w) ++ keys_of (Items_render true w)) /\
  (forall p sec c, Items_render p w = Some sec -> In c (children sec) ->
     style c = (if p then itemDone else itemTodo) /\
     textStyle c = (if p then itemDoneText else itemTodoText)).
Proof.
  intros Hw.
  pose proof (on_screen_in_sync w Hw) as Hs.
  destruct (on_screen_invariant w Hw) as [_ [Hu _]].
  assert (Hk : forall q, keys_of (Items_render q w)
            = map id (rows_where_done (if q then 1 else 0) (table_of w))).
  { intros q. rewrite (render_in_sync q w Hs).
    destruct (rows_where_done _ (table_of w)) as [| x l]; [reflexivity |].
    change (map key (map pressable_of (x :: l)) = map id (x :: l)).
    rewrite map_map. reflexivity. }
  split.
  - rewrite !Hk. apply selections_disjoint_ids. exact Hu.
  - intros p sec c. rewrite (render_in_sync p w Hs).
    set (l := rows_where_done (if p then 1 else 0) (table_of w)).
    assert (Hl : forall r, In r l -> done r = (if p then 1 else 0)).
    { intros r Hr. apply In_rows_where_done in Hr. tauto. }
    clearbody l. destruct l as [| x l]; [discriminate |].
    intros H Hc. injection H as <-.
    change (In c (map pressable_of (x :: l))) in Hc.
    apply in_map_iff in Hc. destruct Hc as [r [<- Hr]].
    unfold pressable_of. simpl. rewrite (Hl r Hr).
    destruct p; split; reflexivity.
Qed.

Lemma rendered_keys_unique_styles_match_witness :
  let w := handle SubmitEditing (handle (ChangeText "a") start) in
  on_screen w /\
  NoDup (keys_of (Items_render false w) ++ keys_of (Items_render true w)).
Proof.
  assert (H : on_screen
                (handle SubmitEditing (handle (ChangeText "a") start))).
  { repeat apply screen_event. apply screen_start. }
  split; [exact H |].
  exact (proj1 (rendered_keys_unique_styles_match _ H)).
Defined.

(** ** Launching *)

Lemma launch_native (f : File) :
  launch Native f
  = match f with
    | Some t => mkWorld (SQLiteDb (Some t)) JNull
                  (Some (rows_where_done 0 t)) (Some (rows_where_done 1 t)) []
    | None => mkWorld (SQLiteDb (Some [])) JNull None None []
    end.
Proof. destruct f; reflexivity. Qed.

(** X14. A launch never alters what is stored and logs nothing: on a file
    that has the table the rows are untouched and both lists are
    filled from them; on a file without it the table is created
    empty, and the two queries that ran before the table existed fail
    silently and leave the lists unfilled.  On the web a launch leaves
    the stub and the initial state. *)
Theorem launch_keeps_the_rows (f : File) :
  file_of (launch Native f)
  = Some (match f with Some t => t | None => [] end) /\
  console (launch Native f) = [] /\
  text (launch Native f) = JNull /\
  in_sync (launch Native f) /\
  (forall p, items_of p (launch Native f)
             = match f with
               | Some t => Some (rows_where_done (if p then 1 else 0) t)
               | None => None
               end) /\
  launch Web f = mkWorld WebStub JNull None None [].
Proof.
  rewrite launch_native. destruct f as [t |]; simpl.
  - repeat split; try reflexivity.
    + intros [|]; left; reflexivity.
    + intros [|]; reflexivity.
  - repeat split; try reflexivity.
    + intros [|]; right; split; reflexivity.
    + intros [|]; reflexivity.
Qed.

(** X15. Closing the app in any state the screen can reach and launching
    it again on the file it left shows the same two sections: the
    same table, the same rendered lists, the input empty. *)
Theorem relaunch_shows_same_lists (w : World) :
  on_screen w ->
  table_of (launch Native (file_of w)) = table_of w /\
  (forall p, Items_render p (launch Native (file_of w)) = Items_render p w) /\
  App_render Native (launch Native (file_of w))
  = App_render Native (setText JNull w).
Proof.
  intros Hw.
  destruct (on_screen_has_table w Hw) as [t Ht].
  pose proof (on_screen_in_sync w Hw) as Hs.
  assert (Hf : file_of w = Some t) by (unfold file_of; rewrite Ht; reflexivity).
  assert (Htab : table_of (launch Native (file_of w)) = table_of w).
  { rewrite Hf, launch_native, (table_of_db w t Ht). reflexivity. }
  assert (Hs' : in_sync (launch Native (file_of w))).
  { rewrite Hf, launch_native. intros [|]; left; reflexivity. }
  assert (Hr : forall p, Items_render p (launch Native (file_of w))
                         = Items_render p w).
  { intros p. rewrite (render_in_sync p _ Hs'), (render_in_sync p w Hs), Htab.
    reflexivity. }
  split; [exact Htab |]. split; [exact Hr |].
  unfold App_render. rewrite !Hr.
  rewrite Hf, launch_native. reflexivity.
Qed.

Lemma relaunch_shows_same_lists_witness :
  let w := handle SubmitEditing (handle (ChangeText "a") start) in
  on_screen w /\
  table_of (launch Native (file_of w)) = table_of w.
Proof.
  assert (H : on_screen
                (handle SubmitEditing (handle (ChangeText "a") start))).
  { repeat apply screen_event. apply screen_start. }
  split; [exact H |].
  exact (proj1 (relaunch_shows_same_lists _ H)).
Defined.

(** ** Pressing what is on the screen *)

Lemma keys_in_sync (p : bool) (w : World) :
  in_sync w ->
  keys_of (Items_render p w)
  = map id (rows_where_done (if p then 1 else 0) (table_of w)).
Proof.
  intros Hs. rewrite (render_in_sync p w Hs).
  destruct (rows_where_done _ (table_of w)) as [| x l]; [reflexivity |].
  change (map key (map pressable_of (x :: l)) = map id (x :: l)).
  rewrite map_map. reflexivity.
Qed.

Lemma rendered_item_row (p : bool) (w : World) (sec : Section) (c : Pressable) :
  in_sync w -> Items_render p w = Some sec -> In c (children sec) ->
  exists r, In r (table_of w) /\ done r = (if p then 1 else 0) /\
            c = pressable_of r.
Proof.
  intros Hs. rewrite (render_in_sync p w Hs).
  set (l := rows_where_done (if p then 1 else 0) (table_of w)).
  assert (Hl : forall r, In r l ->
                 In r (table_of w) /\ done r = (if p then 1 else 0)).
  { intros r Hr. apply In_rows_where_done in Hr. exact Hr. }
  clearbody l. destruct l as [| x l]; [discriminate |].
  intros H Hc. injection H as <-.
  change (In c (map pressable_of (x :: l))) in Hc.
  apply in_map_iff in Hc. destruct Hc as [r [<- Hr]].
  exists r. destruct (Hl r Hr). auto.
Qed.

(** X16. In every state the screen can reach, pressing an item that is on
    the screen always acts on a stored row.  An item under "To do"
    leaves that section and appears under "Complete", and the table
    keeps its size; an item under "Complete" disappears from both
    sections and the table has exactly one row less. *)
Theorem pressing_a_rendered_item
    (w : World) (p : bool) (sec : Section) (c : Pressable) :
  on_screen w ->
  Items_render p w = Some sec ->
  In c (children sec) ->
  let w' := Items_onPress p (pressed_id c) w in
  on_screen w' /\
  ~ In (key c) (keys_of (Items_render p w')) /\
  (p = false ->
   In (key c) (keys_of (Items_render true w')) /\
   List.length (table_of w') = List.length (table_of w)) /\
  (p = true ->
   ~ In (key c) (keys_of (Items_render false w')) /\
   S (List.length (table_of w')) = List.length (table_of w)).
Proof.
  intros Hw Hsec Hc w'.
  pose proof (on_screen_in_sync w Hw) as Hs.
  destruct (rendered_item_row p w sec c Hs Hsec Hc) as [r [Hr [Hd ->]]].
  destruct (on_screen_has_table w Hw) as [t Ht].
  destruct (on_screen_invariant w Hw) as [_ [Hu _]].
  rewrite (table_of_db w t Ht) in *.
  simpl in w'. simpl key.
  assert (Hw' : on_screen w').
  { unfold w', Items_onPress. destruct p.
    - exact (screen_event (PressDone (id r)) w Hw).
    - exact (screen_event (PressTodo (id r)) w Hw). }
  pose proof (on_screen_in_sync w' Hw') as Hs'.
  split; [exact Hw' |].
  rewrite !(keys_in_sync _ w' Hs').
  destruct p; unfold w', Items_onPress in *.
  - assert (Ht' : table_of (onPress_done (id r) w)
                  = filter (fun x => negb (id x =? id r)) t).
    { rewrite (onPress_done_table (id r) w t Ht). reflexivity. }
    rewrite Ht'.
    assert (Hgone : forall d,
              ~ In (id r) (map id (rows_where_done d
                             (filter (fun x => negb (id x =? id r)) t)))).
    { intros d Hin. apply in_map_iff in Hin. destruct Hin as [x [Hx Hin]].
      apply In_rows_where_done in Hin. destruct Hin as [Hin _].
      exact (deleted_id_absent (id r) t x Hin Hx). }
    split; [apply Hgone |]. split; [discriminate |].
    intros _. split; [apply Hgone |].
    apply delete_removes_one; assumption.
  - assert (Ht' : table_of (onPress_todo (id r) w)
                  = map (set_done (id r)) t).
    { rewrite (onPress_todo_table (id r) w t Ht). reflexivity. }
    rewrite Ht'. split; [| split; [| discriminate]].
    + intros Hin. apply in_map_iff in Hin. destruct Hin as [x [Hx Hin]].
      apply In_rows_where_done in Hin. destruct Hin as [Hin Hdx].
      apply in_map_iff in Hin. destruct Hin as [y [<- _]].
      rewrite id_set_done in Hx. unfold set_done in Hdx.
      rewrite Hx, Z.eqb_refl in Hdx. discriminate.
    + intros _. split; [| apply length_map].
      apply in_map_iff. exists (mkRow (id r) 1 (value r)).
      split; [reflexivity |]. apply In_rows_where_done.
      split; [| reflexivity].
      apply in_map_iff. exists r. split; [| exact Hr].
      unfold set_done. rewrite Z.eqb_refl. reflexivity.
Qed.

Lemma pressing_a_rendered_item_witness :
  let w := handle SubmitEditing (handle (ChangeText "a") start) in
  let c := pressable_of (mkRow 1 0 (SqlText "a")) in
  on_screen w /\
  Items_render false w = Some (mkSection "To do" [c]) /\
  In c [c] /\
  on_screen (Items_onPress false 1 w).
Proof.
  assert (H : on_screen
                (handle SubmitEditing (handle (ChangeText "a") start))).
  { repeat apply screen_event. apply screen_start. }
  split; [exact H |]. split; [reflexivity |]. split; [left; reflexivity |].
  exact (proj1 (pressing_a_rendered_item
                  (handle SubmitEditing (handle (ChangeText "a") start))
                  false (mkSection "To do"
                           [pressable_of (mkRow 1 0 (SqlText "a"))])
                  (pressable_of (mkRow 1 0 (SqlText "a")))
                  H eq_refl (or_introl eq_refl))).
Defined.
